(** * odabnote: the HTML-to-PDF renderer (backend/pdf_render.js)

    A shallow embedding of the Node script that drives a headless browser
    through Puppeteer.  The script is one sequential pipeline of calls into
    the outside world (file system, Puppeteer, the console, the process),
    so the embedding is a small monad that

    - reads the outside world from a record of what each call answers,
    - logs every call together with how it ended,
    - distinguishes the four ways JavaScript evaluation can end here:
      a value, a thrown error, [process.exit], and an [await] on a promise
      that never settles.

    Paths are identified with the file they name. *)

From stdpp Require Import base strings list gmap.
From stdpp Require Import pretty.
From Stdlib Require Import QArith.

Local Open Scope string_scope.
Local Open Scope list_scope.
Local Open Scope Z_scope.

(** ** Values crossing the boundary of the script *)

(** A thrown JavaScript value, as the console prints it. *)
Definition Error : Type := string.

(** How a promise ends. *)
Inductive Settle (A : Type) : Type :=
| Fulfilled (a : A)
| Rejected (e : Error)
| Unsettled.
Arguments Fulfilled {A} a.
Arguments Rejected {A} e.
Arguments Unsettled {A}.

(** The options object given to [puppeteer.launch]. *)
Module LaunchOptions.
Record t : Type := mk {
  headless : string;
  args : list string;
  executablePath : string
}.
End LaunchOptions.

(** The [margin] object of the PDF options. *)
Module Margin.
Record t : Type := mk {
  top : string;
  bottom : string;
  left : string;
  right : string
}.
End Margin.

(** The options object given to [page.pdf]. *)
Module PdfOptions.
Record t : Type := mk {
  path : string;
  format : string;
  printBackground : bool;
  margin : Margin.t
}.
End PdfOptions.

(** ** The outside world

    Objects are records of what their methods answer.  A method that is
    called at most once per run is a function of its arguments only. *)

(** A Puppeteer page.  [pdf] fulfils with the bytes of the document. *)
Record Page : Type := {
  setContent : string → string → Settle unit;
  evaluate_fonts_ready : Settle unit;
  waitForTimeout : Z → Settle unit;
  pdf : PdfOptions.t → Settle string
}.

Record Browser : Type := {
  newPage : Settle Page;
  close : Settle unit
}.

Record Puppeteer : Type := {
  executablePath : Error + string;
  launch : LaunchOptions.t → Settle Browser
}.

Record Fs : Type := {
  existsSync : string → bool;
  readFileSync : string → string → Error + string
}.

Record Process : Type := {
  argv : list string;
  env : gmap string string
}.

Record World : Type := {
  puppeteer : Puppeteer;
  fs : Fs;
  process : Process
}.

(** ** What a run leaves behind *)

(** How a logged call ended. *)
Inductive Outcome : Type :=
| Ok
| Err (e : Error)
| Pending.

Inductive Call : Type :=
| FsReadFileSync (path encoding : string)
| PuppeteerExecutablePath
| PuppeteerLaunch (o : LaunchOptions.t)
| BrowserNewPage
| PageSetContent (html waitUntil : string)
| PageEvaluateFontsReady
| PageWaitForTimeout (ms : Z)
| PagePdf (o : PdfOptions.t)
| BrowserClose.

Inductive Event : Type :=
| Stdout (line : string)
| Stderr (line : string)
| FsExistsSync (path : string) (found : bool)
| Called (c : Call) (r : Outcome)
| FileWritten (path data : string).

(** How evaluation of a piece of script ends: with a value, with a thrown
    error (a rejected promise, for an [async] function), with
    [process.exit], or suspended for ever on an [await] whose promise
    never settles while the browser keeps the event loop alive. *)
Inductive Completion (A : Type) : Type :=
| Normal (a : A)
| Thrown (e : Error)
| Exited (code : Z)
| Hung.
Arguments Normal {A} a.
Arguments Thrown {A} e.
Arguments Exited {A} code.
Arguments Hung {A}.

(** The script's only mutable variable ([let browser;]) and the log. *)
Record State : Type := {
  browser : option Browser;
  trace : list Event
}.

Definition initial : State := {| browser := None; trace := [] |}.

Definition Proc (A : Type) : Type := World → State → State * Completion A.

Definition ret {A} (a : A) : Proc A := λ _ s, (s, Normal a).

Definition bind {A B} (m : Proc A) (k : A → Proc B) : Proc B :=
  λ w s,
    match m w s with
    | (s', Normal a) => k a w s'
    | (s', Thrown e) => (s', Thrown e)
    | (s', Exited c) => (s', Exited c)
    | (s', Hung) => (s', Hung)
    end.

#[global] Instance Proc_ret : MRet Proc := @ret.
#[global] Instance Proc_bind : MBind Proc := λ A B k m, bind m k.

Definition emit (e : Event) : Proc unit :=
  λ _ s, ({| browser := browser s; trace := trace s ++ [e] |}, Normal tt).

Definition throw {A} (e : Error) : Proc A := λ _ s, (s, Thrown e).

Definition hang {A} : Proc A := λ _ s, (s, Hung).

Definition ask : Proc World := λ w s, (s, Normal w).

Definition get_browser : Proc (option Browser) := λ _ s, (s, Normal (browser s)).

Definition set_browser (b : Browser) : Proc unit :=
  λ _ s, ({| browser := Some b; trace := trace s |}, Normal tt).

Definition when (c : bool) (m : Proc unit) : Proc unit :=
  if c then m else ret tt.

(** [process.exit(code)]: the process ends on the spot; nothing of the
    script runs afterwards, neither handlers nor [finally] blocks. *)
Definition process_exit {A} (code : Z) : Proc A := λ _ s, (s, Exited code).

Definition console_log (line : string) : Proc unit := emit (Stdout line).
Definition console_error (line : string) : Proc unit := emit (Stderr line).

(** A synchronous call that may throw. *)
Definition call_sync {A} (c : Call) (r : Error + A) : Proc A :=
  match r with
  | inr a => emit (Called c Ok) ;; ret a
  | inl e => emit (Called c (Err e)) ;; throw e
  end.

(** [await] on the promise a call returned. *)
Definition await {A} (c : Call) (r : Settle A) : Proc A :=
  match r with
  | Fulfilled a => emit (Called c Ok) ;; ret a
  | Rejected e => emit (Called c (Err e)) ;; throw e
  | Unsettled => emit (Called c Pending) ;; hang
  end.

(** [try { body } catch (e) { handler } finally { finalizer }].  The
    finalizer runs after a value or a throw leaves the protected part and
    its own abrupt completion wins; it does not run when the process
    exited or hangs inside. *)
Definition try_catch_finally {A} (body : Proc A) (handler : Error → Proc A)
    (finalizer : Proc unit) : Proc A :=
  λ w s,
    let finally (r : State * Completion A) : State * Completion A :=
      match r with
      | (s1, Normal a) =>
          match finalizer w s1 with
          | (s2, Normal _) => (s2, Normal a)
          | (s2, Thrown e) => (s2, Thrown e)
          | (s2, Exited c) => (s2, Exited c)
          | (s2, Hung) => (s2, Hung)
          end
      | (s1, Thrown e) =>
          match finalizer w s1 with
          | (s2, Normal _) => (s2, Thrown e)
          | (s2, Thrown e') => (s2, Thrown e')
          | (s2, Exited c) => (s2, Exited c)
          | (s2, Hung) => (s2, Hung)
          end
      | (s1, Exited c) => (s1, Exited c)
      | (s1, Hung) => (s1, Hung)
      end in
    match body w s with
    | (s1, Thrown e) => finally (handler e w s1)
    | r => finally r
    end.

(** [promise.then(onFulfilled).catch(onRejected)]. *)
Definition then_catch {A} (promise : Proc A) (onFulfilled : A → Proc unit)
    (onRejected : Error → Proc unit) : Proc unit :=
  λ w s,
    match promise w s with
    | (s1, Normal a) =>
        match onFulfilled a w s1 with
        | (s2, Thrown e) => onRejected e w s2
        | r => r
        end
    | (s1, Thrown e) => onRejected e w s1
    | (s1, Exited c) => (s1, Exited c)
    | (s1, Hung) => (s1, Hung)
    end.

(** ** The calls the script makes *)

Definition fs_existsSync (path : string) : Proc bool :=
  w ← ask;
  let found := existsSync (fs w) path in
  emit (FsExistsSync path found) ;; ret found.

Definition fs_readFileSync (path encoding : string) : Proc string :=
  w ← ask;
  call_sync (FsReadFileSync path encoding) (readFileSync (fs w) path encoding).

Definition puppeteer_executablePath : Proc string :=
  w ← ask;
  call_sync PuppeteerExecutablePath (executablePath (puppeteer w)).

Definition puppeteer_launch (o : LaunchOptions.t) : Proc Browser :=
  w ← ask;
  await (PuppeteerLaunch o) (launch (puppeteer w) o).

Definition browser_newPage (b : Browser) : Proc Page :=
  await BrowserNewPage (newPage b).

Definition browser_close (b : Browser) : Proc unit :=
  await BrowserClose (close b).

Definition page_setContent (p : Page) (html waitUntil : string) : Proc unit :=
  await (PageSetContent html waitUntil) (setContent p html waitUntil).

Definition page_evaluate_fonts_ready (p : Page) : Proc unit :=
  await PageEvaluateFontsReady (evaluate_fonts_ready p).

Definition page_waitForTimeout (p : Page) (ms : Z) : Proc unit :=
  await (PageWaitForTimeout ms) (waitForTimeout p ms).

(** [page.pdf] with a [path] saves the document there before it fulfils. *)
Definition page_pdf (p : Page) (o : PdfOptions.t) : Proc unit :=
  data ← await (PagePdf o) (pdf p o);
  emit (FileWritten (PdfOptions.path o) data).

(** [process.env.NAME || fallback()]: a string is truthy unless empty, a
    missing variable is [undefined]; the fallback is evaluated only when
    the left operand is falsy. *)
Definition env_or (name : string) (fallback : Proc string) : Proc string :=
  w ← ask;
  match env (process w) !! name with
  | Some v => if String.eqb v "" then fallback else ret v
  | None => fallback
  end.

(** ** pdf_render.js *)

Definition launch_args : list string :=
  [ "--no-sandbox";
    "--disable-setuid-sandbox";
    "--disable-dev-shm-usage";
    "--disable-gpu";
    "--disable-software-rasterizer";
    "--disable-extensions" ].

Definition pdf_options (outputPath : string) : PdfOptions.t :=
  {| PdfOptions.path := outputPath;
     PdfOptions.format := "A4";
     PdfOptions.printBackground := true;
     PdfOptions.margin :=
       {| Margin.top := "10mm";
          Margin.bottom := "15mm";
          Margin.left := "10mm";
          Margin.right := "10mm" |} |}.

Definition generatePDF (htmlPath outputPath : string) : Proc unit :=
  console_log "Starting PDF generation..." ;;
  console_log ("HTML: " +:+ htmlPath) ;;
  console_log ("Output: " +:+ outputPath) ;;
  found ← fs_existsSync htmlPath;
  when (negb found)
    (console_error ("HTML file not found: " +:+ htmlPath) ;;
     process_exit 1) ;;
  try_catch_finally
    (exe ← env_or "PUPPETEER_EXECUTABLE_PATH" puppeteer_executablePath;
     b ← puppeteer_launch
           {| LaunchOptions.headless := "new";
              LaunchOptions.args := launch_args;
              LaunchOptions.executablePath := exe |};
     set_browser b ;;
     console_log "Browser launched" ;;
     page ← browser_newPage b;
     htmlContent ← fs_readFileSync htmlPath "utf8";
     page_setContent page htmlContent "networkidle0" ;;
     console_log "HTML loaded" ;;
     page_evaluate_fonts_ready page ;;
     console_log "Fonts loaded" ;;
     page_waitForTimeout page 2000 ;;
     console_log "KaTeX rendered" ;;
     page_pdf page (pdf_options outputPath) ;;
     console_log "PDF generated successfully!")
    (λ error,
       console_error ("Error generating PDF: " +:+ error) ;;
       process_exit 1)
    (b ← get_browser;
     match b with
     | Some b => browser_close b
     | None => ret tt
     end).

Definition usage : string := "Usage: node pdf_render.js <html_path> <output_path>".

(** The top level of the script.  [process.argv] starts with the
    interpreter and the script; the last case of the destructuring is not
    reached, [process.exit] above it does not return. *)
Definition main : Proc unit :=
  w ← ask;
  let args := drop 2 (argv (process w)) in
  when (negb (length args =? 2)%nat)
    (console_error usage ;;
     process_exit 1) ;;
  match args with
  | [htmlPath; outputPath] =>
      then_catch (generatePDF htmlPath outputPath)
        (λ _, console_log "Done!" ;; process_exit 0)
        (λ error, console_error ("Fatal error: " +:+ error) ;; process_exit 1)
  | _ => ret tt
  end.

Definition run (w : World) : State * Completion unit := main w initial.

(** ** Observations on a run *)

(** [const args = process.argv.slice(2)]. *)
Definition script_args (w : World) : list string := drop 2 (argv (process w)).

(** Everything that happened, in order, and how the process ended. *)
Definition events (w : World) : list Event := trace (run w).1.
Definition completion (w : World) : Completion unit := (run w).2.

(** The calls among the events. *)
Definition calls (tr : list Event) : list (Call * Outcome) :=
  omap (λ ev, match ev with Called c r => Some (c, r) | _ => None end) tr.

(** The awaited calls on the page, from loading to capture. *)
Definition is_wait (c : Call) : bool :=
  match c with
  | PageSetContent _ _ | PageEvaluateFontsReady
  | PageWaitForTimeout _ | PagePdf _ => true
  | _ => false
  end.

Definition waits (tr : list Event) : list (Call * Outcome) :=
  omap (λ ev, match ev with
              | Called c r => if is_wait c then Some (c, r) else None
              | _ => None
              end) tr.

(** The files written, with their new content. *)
Definition writes (tr : list Event) : list (string * string) :=
  omap (λ ev, match ev with FileWritten p d => Some (p, d) | _ => None end) tr.

(** The content of the regular files after the run, given the content
    before it. *)
Definition disk_after (tr : list Event) (disk : gmap string string)
    : gmap string string :=
  foldl (λ d pd, <[pd.1 := pd.2]> d) disk (writes tr).

(** A run succeeded when the document was saved and no call failed or
    was left pending. *)
Definition succeeded (tr : list Event) : Prop :=
  (∃ p d, FileWritten p d ∈ tr) ∧ ∀ c r, Called c r ∈ tr → r = Ok.

(** [steps] follows [plan]: the calls are made in the plan's order, and a
    call has a successor only if it completed. *)
Fixpoint sequential (plan : list Call) (steps : list (Call * Outcome)) : Prop :=
  match steps with
  | [] => True
  | (c, r) :: rest =>
      match plan with
      | [] => False
      | c' :: plan' => c = c' ∧ (r = Ok ∨ rest = []) ∧ sequential plan' rest
      end
  end.

(** What the script does with the page once it has the HTML. *)
Definition wait_plan (html outputPath : string) : list Call :=
  [ PageSetContent html "networkidle0";
    PageEvaluateFontsReady;
    PageWaitForTimeout 2000;
    PagePdf (pdf_options outputPath) ].

(** The events up to the capture request, console lines left out. *)
Fixpoint before_capture (tr : list Event) : list Event :=
  match tr with
  | [] => []
  | Called (PagePdf _) _ :: _ => []
  | Stdout _ :: tr' | Stderr _ :: tr' => before_capture tr'
  | ev :: tr' => ev :: before_capture tr'
  end.

(** ** Sample worlds *)

Module Sample.

Definition page (capture : Settle string) : Page :=
  {| setContent := λ _ _, Fulfilled tt;
     evaluate_fonts_ready := Fulfilled tt;
     waitForTimeout := λ _, Fulfilled tt;
     pdf := λ _, capture |}.

Definition chromium (capture : Settle string) : Browser :=
  {| newPage := Fulfilled (page capture);
     close := Fulfilled tt |}.

(** One HTML file, [note.html], is on disk; the browser works and the
    capture ends as [capture] says. *)
Definition disk : gmap string string := {[ "note.html" := "<p>1+1=2</p>" ]}.

Definition world (environment : gmap string string) (arguments : list string)
    (capture : Settle string) : World :=
  {| puppeteer :=
       {| executablePath := inr "/cache/puppeteer/chrome";
          launch := λ _, Fulfilled (chromium capture) |};
     fs :=
       {| existsSync := λ p, bool_decide (is_Some (disk !! p));
          readFileSync := λ p _,
            match disk !! p with
            | Some content => inr content
            | None => inl "ENOENT"
            end |};
     process :=
       {| argv := "node" :: "pdf_render.js" :: arguments;
          env := environment |} |}.

Definition docker_env : gmap string string :=
  {[ "PUPPETEER_EXECUTABLE_PATH" := "/usr/bin/chromium" ]}.

(** [node pdf_render.js note.html out.pdf] *)
Definition good : World :=
  world docker_env ["note.html"; "out.pdf"] (Fulfilled "%PDF-1.4").

(** [node pdf_render.js missing.html out.pdf] *)
Definition missing : World :=
  world docker_env ["missing.html"; "out.pdf"] (Fulfilled "%PDF-1.4").

(** [node pdf_render.js note.html] *)
Definition one_argument : World :=
  world docker_env ["note.html"] (Fulfilled "%PDF-1.4").

(** [node pdf_render.js note.html /no/such/dir/out.pdf] *)
Definition unwritable : World :=
  world docker_env ["note.html"; "/no/such/dir/out.pdf"]
    (Rejected "ENOENT: no such file or directory").

(** [node pdf_render.js note.html note.html] *)
Definition same_path : World :=
  world docker_env ["note.html"; "note.html"] (Fulfilled "%PDF-1.4").

(** No override in the environment. *)
Definition bundled : World :=
  world ∅ ["note.html"; "out.pdf"] (Fulfilled "%PDF-1.4").

End Sample.

(** ** Further observations on a run *)

(** The messages of the [console.error] calls, one for each call; a
    message that prints an error value can run over several lines. *)
Definition console_error_calls (tr : list Event) : list string :=
  omap (λ ev, match ev with Stderr message => Some message | _ => None end) tr.

Definition is_launch (c : Call) : bool :=
  match c with PuppeteerLaunch _ => true | _ => false end.

Definition is_capture (c : Call) : bool :=
  match c with PagePdf _ => true | _ => false end.

Definition is_close (c : Call) : bool :=
  match c with BrowserClose => true | _ => false end.

(** How many of the calls of a run satisfy [p]. *)
Definition times (p : Call → bool) (tr : list Event) : nat :=
  length (List.filter p (calls tr).*1).

(** How the promise of a call ended, as the log records it. *)
Definition settled {A} (r : Settle A) : Outcome :=
  match r with
  | Fulfilled _ => Ok
  | Rejected e => Err e
  | Unsettled => Pending
  end.

(** What the page [pg] answers to an awaited call. *)
Definition answer_of (pg : Page) (c : Call) : Outcome :=
  match c with
  | PageSetContent html waitUntil => settled (setContent pg html waitUntil)
  | PageEvaluateFontsReady => settled (evaluate_fonts_ready pg)
  | PageWaitForTimeout ms => settled (waitForTimeout pg ms)
  | PagePdf o => settled (pdf pg o)
  | _ => Ok
  end.

(** Carrying out [plan] on the page [pg], one call after the other: the
    first call is made, and each further call is made exactly when the
    call before it was fulfilled. *)
Fixpoint performed (pg : Page) (plan : list Call) : list (Call * Outcome) :=
  match plan with
  | [] => []
  | c :: plan' =>
      (c, answer_of pg c)
        :: match answer_of pg c with
           | Ok => performed pg plan'
           | _ => []
           end
  end.

(** ** More sample worlds *)

Module Scenario.

(** The document is saved, then [browser.close()] is rejected. *)
Definition stubborn_browser : Browser :=
  {| newPage := Fulfilled (Sample.page (Fulfilled "%PDF-1.4"));
     close := Rejected "Protocol error: Target closed" |}.

Definition close_fails : World :=
  {| puppeteer :=
       {| executablePath := inr "/cache/puppeteer/chrome";
          launch := λ _, Fulfilled stubborn_browser |};
     fs := fs Sample.good;
     process := process Sample.good |}.

(** No override in the environment and no browser installed:
    [puppeteer.executablePath()] throws. *)
Definition no_browser : World :=
  {| puppeteer :=
       {| executablePath := inl "Could not find Chrome";
          launch := λ _, Rejected "spawn ENOENT" |};
     fs := fs Sample.good;
     process :=
       {| argv := ["node"; "pdf_render.js"; "note.html"; "out.pdf"];
          env := ∅ |} |}.

(** The fonts of the page never become ready. *)
Definition fonts_never_ready : World :=
  {| puppeteer :=
       {| executablePath := inr "/cache/puppeteer/chrome";
          launch := λ _, Fulfilled
            {| newPage := Fulfilled
                 {| setContent := λ _ _, Fulfilled tt;
                    evaluate_fonts_ready := Unsettled;
                    waitForTimeout := λ _, Fulfilled tt;
                    pdf := λ _, Fulfilled "%PDF-1.4" |};
               close := Fulfilled tt |} |};
     fs := fs Sample.good;
     process := process Sample.good |}.

End Scenario.

(** * frontend/static/js/main.js

    The helpers of the pages.  A helper works on the part of the page it
    touches (its state) and leaves a record of the toasts it shows, the
    console errors it prints and the requests it sends. *)

Module Frontend.

(** ** Strings *)

(** A JavaScript string: its UTF-16 code units. *)
Definition Str : Type := list N.

(** The code points of a UTF-8 byte sequence. *)
Fixpoint utf8_points (bytes : list N) : list N :=
  match bytes with
  | [] => []
  | b1 :: rest =>
      if (b1 <? 128)%N then b1 :: utf8_points rest
      else if (b1 <? 224)%N then
        match rest with
        | b2 :: rest =>
            ((b1 `mod` 32) * 64 + b2 `mod` 64)%N :: utf8_points rest
        | _ => []
        end
      else if (b1 <? 240)%N then
        match rest with
        | b2 :: b3 :: rest =>
            ((b1 `mod` 16) * 4096 + (b2 `mod` 64) * 64 + b3 `mod` 64)%N
              :: utf8_points rest
        | _ => []
        end
      else
        match rest with
        | b2 :: b3 :: b4 :: rest =>
            ((b1 `mod` 8) * 262144 + (b2 `mod` 64) * 4096
             + (b3 `mod` 64) * 64 + b4 `mod` 64)%N
              :: utf8_points rest
        | _ => []
        end
  end.

Definition utf16_units (point : N) : list N :=
  if (point <? 65536)%N then [point]
  else [ (55296 + (point - 65536) `div` 1024)%N;
         (56320 + (point - 65536) `mod` 1024)%N ].

(** A string literal of the script. *)
Definition lit (s : string) : Str :=
  utf8_points (Ascii.N_of_ascii <$> String.list_ascii_of_string s) ≫= utf16_units.
Arguments lit : simpl never.

(** WhiteSpace and LineTerminator code units, which [trim] removes. *)
Definition is_space (c : N) : bool :=
  bool_decide (c ∈ [ 9; 10; 11; 12; 13; 32; 160; 5760;
                     8192; 8193; 8194; 8195; 8196; 8197; 8198; 8199;
                     8200; 8201; 8202; 8232; 8233; 8239; 8287; 12288;
                     65279 ]%N).

Fixpoint trimStart (s : Str) : Str :=
  match s with
  | c :: s' => if is_space c then trimStart s' else s
  | [] => []
  end.

Definition trimEnd (s : Str) : Str := reverse (trimStart (reverse s)).

(** [s.trim()] *)
Definition trim (s : Str) : Str := trimEnd (trimStart s).

(** A string is truthy unless it is empty. *)
Definition truthy (s : Str) : bool :=
  match s with [] => false | _ => true end.

(** [s.substring(0, n)] *)
Definition substring0 (n : nat) (s : Str) : Str := take n s.

(** ** Effects *)

(** The [init] object of a request: its [headers] (when it has any) and
    its other fields. *)
Record Request : Type := {
  fields : gmap Str Str;
  headers : option (gmap Str Str)
}.

Inductive Effect : Type :=
| Toast (message type : Str)
| ConsoleError (label : Str) (e : Error)
| Fetched (url : Str) (init : Request).

Definition Js (S A : Type) : Type :=
  S * list Effect → (S * list Effect) * Completion A.

Definition js_ret {S A} (a : A) : Js S A := λ s, (s, Normal a).

Definition js_bind {S A B} (m : Js S A) (k : A → Js S B) : Js S B :=
  λ s,
    match m s with
    | (s', Normal a) => k a s'
    | (s', Thrown e) => (s', Thrown e)
    | (s', Exited c) => (s', Exited c)
    | (s', Hung) => (s', Hung)
    end.

#[global] Instance Js_ret {S} : MRet (Js S) := @js_ret S.
#[global] Instance Js_bind {S} : MBind (Js S) := λ A B k m, js_bind m k.

Definition js_get {S} : Js S S := λ s, (s, Normal s.1).
Definition js_put {S} (x : S) : Js S unit := λ s, ((x, s.2), Normal tt).
Definition js_emit {S} (e : Effect) : Js S unit :=
  λ s, ((s.1, s.2 ++ [e]), Normal tt).
Definition js_throw {S A} (e : Error) : Js S A := λ s, (s, Thrown e).
Definition js_hang {S A} : Js S A := λ s, (s, Hung).

Definition js_when {S} (c : bool) (m : Js S unit) : Js S unit :=
  if c then m else js_ret tt.

(** A call that may throw. *)
Definition js_call {S A} (r : Error + A) : Js S A :=
  match r with
  | inr a => js_ret a
  | inl e => js_throw e
  end.

(** [await] on a promise. *)
Definition js_await {S A} (r : Settle A) : Js S A :=
  match r with
  | Fulfilled a => js_ret a
  | Rejected e => js_throw e
  | Unsettled => js_hang
  end.

(** [try { body } catch (e) { handler }] *)
Definition js_try_catch {S A} (body : Js S A) (handler : Error → Js S A)
    : Js S A :=
  λ s,
    match body s with
    | (s1, Thrown e) => handler e s1
    | r => r
    end.

(** [try { body } catch (e) { handler } finally { finalizer }] *)
Definition js_try_catch_finally {S A} (body : Js S A) (handler : Error → Js S A)
    (finalizer : Js S unit) : Js S A :=
  λ s,
    match js_try_catch body handler s with
    | (s1, Normal a) =>
        match finalizer s1 with
        | (s2, Normal _) => (s2, Normal a)
        | (s2, Thrown e) => (s2, Thrown e)
        | (s2, Exited c) => (s2, Exited c)
        | (s2, Hung) => (s2, Hung)
        end
    | (s1, Thrown e) =>
        match finalizer s1 with
        | (s2, Normal _) => (s2, Thrown e)
        | (s2, Thrown e') => (s2, Thrown e')
        | (s2, Exited c) => (s2, Exited c)
        | (s2, Hung) => (s2, Hung)
        end
    | (s1, Exited c) => (s1, Exited c)
    | (s1, Hung) => (s1, Hung)
    end.

Definition console_error {S} (label : Str) (e : Error) : Js S unit :=
  js_emit (ConsoleError label e).

(** [showToast(message, type = 'success')].  The toast put on the page
    is recorded by its message and its type. *)
Definition showToast {S} (message : Str) (type : option Str) : Js S unit :=
  js_emit (Toast message (default (lit "success") type)).

(** The toasts among the effects. *)
Definition toasts (l : list Effect) : list (Str * Str) :=
  omap (λ e, match e with Toast m t => Some (m, t) | _ => None end) l.

Definition console_errors (l : list Effect) : list (Str * Error) :=
  omap (λ e, match e with ConsoleError m x => Some (m, x) | _ => None end) l.

(** ** storage *)

(** [localStorage]: its items, the error every access throws when the
    page may not use storage ([denied]) and the error [setItem] throws
    when the new content does not fit ([quota]). *)
Record LocalStorage : Type := {
  items : gmap Str Str;
  denied : option Error;
  quota : gmap Str Str → option Error
}.

(** [JSON] on the values of type [V]; [stringify] answers [None] where
    [JSON.stringify] returns [undefined]. *)
Record Json (V : Type) : Type := {
  null : V;
  stringify : V → Error + option Str;
  parse : Str → Error + V
}.
Arguments null {V} _.
Arguments stringify {V} _ _.
Arguments parse {V} _ _.

Definition with_items (st : LocalStorage) (m : gmap Str Str) : LocalStorage :=
  {| items := m; denied := denied st; quota := quota st |}.

(** Evaluation of the global [localStorage]. *)
Definition localStorage : Js LocalStorage unit :=
  st ← js_get;
  match denied st with
  | Some e => js_throw e
  | None => js_ret tt
  end.

Definition setItem (key value : Str) : Js LocalStorage unit :=
  st ← js_get;
  let items' := <[key := value]> (items st) in
  match quota st items' with
  | Some e => js_throw e
  | None => js_put (with_items st items')
  end.

Definition getItem (key : Str) : Js LocalStorage (option Str) :=
  st ← js_get;
  js_ret (items st !! key).

Definition removeItem (key : Str) : Js LocalStorage unit :=
  st ← js_get;
  js_put (with_items st (delete key (items st))).

Definition storage_set {V} (JSON : Json V) (key : Str) (value : V)
    : Js LocalStorage unit :=
  js_try_catch
    (localStorage ;;
     text ← js_call (stringify JSON value);
     setItem key (default (lit "undefined") text))
    (λ e, console_error (lit "LocalStorage 저장 실패:") e).

Definition storage_get {V} (JSON : Json V) (key : Str) : Js LocalStorage V :=
  js_try_catch
    (localStorage ;;
     item ← getItem key;
     match item with
     | Some text =>
         if truthy text then js_call (parse JSON text) else js_ret (null JSON)
     | None => js_ret (null JSON)
     end)
    (λ e, console_error (lit "LocalStorage 읽기 실패:") e ;; js_ret (null JSON)).

Definition storage_remove (key : Str) : Js LocalStorage unit :=
  js_try_catch
    (localStorage ;; removeItem key)
    (λ e, console_error (lit "LocalStorage 삭제 실패:") e).

(** ** fetchJSON *)

Record Response (B : Type) : Type := {
  ok : bool;
  status : N;
  json : Settle B
}.
Arguments ok {B} _.
Arguments status {B} _.
Arguments json {B} _.

(** [options] is [None] for a call without options and is otherwise a
    plain object, whose [headers], when it has any, are a plain object
    too. *)
Definition fetchJSON {S B} (fetch : Str → Request → Settle (Response B))
    (url : Str) (options : option Request) : Js S B :=
  let options := default {| fields := ∅; headers := None |} options in
  js_try_catch
    (let init :=
       {| fields := fields options;
          headers :=
            Some (default ∅ (headers options)
                  ∪ {[ lit "Content-Type" := lit "application/json" ]}) |} in
     js_emit (Fetched url init) ;;
     response ← js_await (fetch url init);
     js_when (negb (ok response))
       (js_throw ("Error: HTTP error! status: " +:+ pretty (status response))) ;;
     js_await (json response))
    (λ error,
       console_error (lit "Fetch 오류:") error ;;
       showToast (lit "서버 요청에 실패했습니다.") (Some (lit "error")) ;;
       js_throw error).

(** ** extractText *)

(** What the code can see of [data.text]: a string, or another value,
    given by the text a textarea shows for it and by the error that
    calling [substring] on it throws. *)
Inductive TextField : Type :=
| IsString (s : Str)
| NotString (shown : Str) (e : Error).

(** What the code can see of [data.error]: falsy, or truthy with the
    text it has inside a string. *)
Inductive ErrorField : Type :=
| Falsy
| Truthy (shown : Str).

(** The parsed body of the answer.  [Nullish e] is [null], on which
    reading [success] throws [e]; any other value is seen through the
    truthiness of its [success], its [text] and its [error] (a number, a
    string or a boolean has none of them: [Body false _ Falsy]). *)
Inductive Data : Type :=
| Nullish (e : Error)
| Body (success : bool) (text : TextField) (error : ErrorField).

Record Button : Type := {
  disabled : bool;
  textContent : Str
}.

(** [target] is what [event.target] gives: the element that was clicked,
    or the error thrown when there is no event or it has no target.
    [problem_text] is the value of [textarea[name="problem_text"]], when
    the page has one. *)
Record ExtractPage : Type := {
  target : Error + Button;
  problem_text : option Str
}.

Definition set_disabled (b : bool) : Js ExtractPage unit :=
  page ← js_get;
  js_put {| target :=
              match target page with
              | inr button =>
                  inr {| disabled := b; textContent := textContent button |}
              | inl e => inl e
              end;
            problem_text := problem_text page |}.

Definition set_textContent (s : Str) : Js ExtractPage unit :=
  page ← js_get;
  js_put {| target :=
              match target page with
              | inr button =>
                  inr {| disabled := disabled button; textContent := s |}
              | inl e => inl e
              end;
            problem_text := problem_text page |}.

Definition set_problem_text (s : Str) : Js ExtractPage unit :=
  page ← js_get;
  js_put {| target := target page; problem_text := Some s |}.

(** [String_of] is the conversion of the argument inside the template
    literal. *)
Definition extractText {Id} (String_of : Id → Str)
    (fetch : Str → Request → Settle (Response Data)) (problemId : Id)
    : Js ExtractPage unit :=
  page ← js_get;
  button ← js_call (target page);
  let originalText := textContent button in
  js_try_catch_finally
    (set_disabled true ;;
     set_textContent (lit "⏳ 추출 중...") ;;
     let url := lit "/problems/" ++ String_of problemId ++ lit "/extract" in
     let init := {| fields := {[ lit "method" := lit "POST" ]}; headers := None |} in
     js_emit (Fetched url init) ;;
     response ← js_await (fetch url init);
     data ← js_await (json response);
     match data with
     | Nullish e => js_throw e
     | Body true text _ =>
         page ← js_get;
         match problem_text page with
         | Some _ =>
             set_problem_text
               match text with IsString s => s | NotString shown _ => shown end ;;
             showToast (lit "✅ 텍스트 추출 완료!") None
         | None =>
             shortened ←
               match text with
               | IsString s => js_ret (substring0 50 s)
               | NotString _ e => js_throw e
               end;
             showToast (lit "✅ 텍스트 추출 완료: " ++ shortened ++ lit "...") None
         end
     | Body false _ error =>
         showToast
           (lit "텍스트 추출에 실패했습니다: "
            ++ match error with
               | Truthy shown => shown
               | Falsy => lit "알 수 없는 오류"
               end)
           (Some (lit "error"))
     end)
    (λ error,
       console_error (lit "추출 오류:") error ;;
       showToast (lit "텍스트 추출 중 오류가 발생했습니다.") (Some (lit "error")))
    (set_disabled false ;;
     set_textContent originalText).

(** ** copyToClipboard *)

(** [writeText] is [navigator.clipboard.writeText]; a page without
    clipboard access has it fail. *)
Definition copyToClipboard {S} (writeText : Str → Settle unit) (text : Str)
    : Js S unit :=
  js_try_catch
    (js_await (writeText text) ;;
     showToast (lit "클립보드에 복사되었습니다!") None)
    (λ err,
       console_error (lit "복사 실패:") err ;;
       showToast (lit "복사에 실패했습니다.") (Some (lit "error"))).

(** ** validateForm *)

Record Field : Type := {
  value : Str;
  borderColor : Str
}.

(** One turn of the loop over the required fields: the fields handled so
    far and [isValid]. *)
Definition check_field (acc : list Field * bool) (field : Field)
    : list Field * bool :=
  if negb (truthy (trim (value field)))
  then (acc.1 ++ [{| value := value field; borderColor := lit "#e74c3c" |}], false)
  else (acc.1 ++ [{| value := value field; borderColor := lit "" |}], acc.2).

(** The state is the page's elements by id, each with its required
    fields in document order. *)
Definition validateForm (formId : Str) : Js (gmap Str (list Field)) bool :=
  forms ← js_get;
  match forms !! formId with
  | None => js_ret true
  | Some requiredFields =>
      let result := foldl check_field ([], true) requiredFields in
      js_put (<[formId := result.1]> forms) ;;
      js_when (negb result.2)
        (showToast (lit "모든 필수 항목을 입력해주세요.") (Some (lit "error"))) ;;
      js_ret result.2
  end.

(** ** checkFileSize *)

(** A file input: the sizes in bytes of its [files] ([None] when the
    element has no file list) and its [value].  Assigning the empty
    string to the value of a file input empties its list of files. *)
Record FileInput : Type := {
  files : option (list N);
  input_value : Str
}.

(** The state is the [input] passed in; [Number_toString] renders the
    number inside the message.  A size is a whole number of bytes and is
    divided by powers of two, so the quotient is the exact rational. *)
Definition checkFileSize (Number_toString : Q → Str) (maxSizeMB : option Q)
    : Js FileInput bool :=
  let maxSizeMB := default (16 : Q) maxSizeMB in
  input ← js_get;
  match files input ≫= head with
  | Some size =>
      let fileSize := (inject_Z (Z.of_N size) / 1024 / 1024)%Q in
      if negb (Qle_bool fileSize maxSizeMB) then
        showToast
          (lit "파일 크기는 " ++ Number_toString maxSizeMB
           ++ lit "MB를 초과할 수 없습니다.")
          (Some (lit "error")) ;;
        js_put {| files := Some []; input_value := lit "" |} ;;
        js_ret false
      else js_ret true
  | None => js_ret true
  end.

(** ** formatDate *)

(** What the getters of a valid [Date] answer, in local time. *)
Record DateFields : Type := {
  getFullYear : Z;
  getMonth : N;
  getDate : N;
  getHours : N;
  getMinutes : N
}.

(** [String(x)] for an integer or [NaN]. *)
Definition number_string (x : option Z) : string :=
  match x with
  | Some n => pretty n
  | None => "NaN"
  end.

(** [s.padStart(targetLength, padString)] *)
Definition padStart (targetLength : nat) (padString s : string) : string :=
  let fillLen := (targetLength - String.length s)%nat in
  if bool_decide (padString = "") then s
  else
    String.string_of_list_ascii
      (take fillLen
         (mjoin (replicate fillLen (String.list_ascii_of_string padString))))
    +:+ s.

(** [Date_new] is [new Date(dateString)]: [None] for an invalid date. *)
Definition formatDate (Date_new : Str → option DateFields) (dateString : Str)
    : string :=
  let date := Date_new dateString in
  let year := number_string (getFullYear <$> date) in
  let month :=
    padStart 2 "0" (number_string ((λ d, Z.of_N (getMonth d) + 1) <$> date)) in
  let day := padStart 2 "0" (number_string ((λ d, Z.of_N (getDate d)) <$> date)) in
  let hours := padStart 2 "0" (number_string ((λ d, Z.of_N (getHours d)) <$> date)) in
  let minutes :=
    padStart 2 "0" (number_string ((λ d, Z.of_N (getMinutes d)) <$> date)) in
  year +:+ "-" +:+ month +:+ "-" +:+ day +:+ " " +:+ hours +:+ ":" +:+ minutes.

(** ** debounce *)

(** The closure [debounce(func, wait)] returns, with the runtime's
    timers that it has set: the variable [timeout], the pending timers
    (what [later] will pass to [func], and the delay), the next timer id
    of the runtime, and the calls made to [func] so far. *)
Record Debounced (A : Type) : Type := {
  timeout : option nat;
  timers : gmap nat (A * Z);
  next_timer : nat;
  calls : list A
}.
Arguments timeout {A} _.
Arguments timers {A} _.
Arguments next_timer {A} _.
Arguments calls {A} _.

Definition clearTimeout {A} (id : option nat) (table : gmap nat (A * Z))
    : gmap nat (A * Z) :=
  match id with
  | Some i => delete i table
  | None => table
  end.

(** A call of the debounced function. *)
Definition executedFunction {A} (wait : Z) (args : A) (st : Debounced A)
    : Debounced A :=
  let table := clearTimeout (timeout st) (timers st) in
  let id := next_timer st in
  {| timeout := Some id;
     timers := <[id := (args, wait)]> table;
     next_timer := S id;
     calls := calls st |}.

(** The timer [id] goes off: the runtime drops it and runs [later].  A
    timer that is not pending does not go off. *)
Definition timer_fires {A} (id : nat) (st : Debounced A) : Debounced A :=
  match timers st !! id with
  | Some (args, _) =>
      {| timeout := timeout st;
         timers := clearTimeout (timeout st) (delete id (timers st));
         next_timer := next_timer st;
         calls := calls st ++ [args] |}
  | None => st
  end.

(** [let timeout;]: a fresh closure, in a runtime whose next timer id is
    [n]. *)
Definition debounce {A} (n : nat) : Debounced A :=
  {| timeout := None; timers := ∅; next_timer := n; calls := [] |}.

Inductive Action (A : Type) : Type :=
| Invoke (args : A)
| Fire (id : nat).
Arguments Invoke {A} args.
Arguments Fire {A} id.

Definition step {A} (wait : Z) (st : Debounced A) (a : Action A) : Debounced A :=
  match a with
  | Invoke args => executedFunction wait args st
  | Fire id => timer_fires id st
  end.

Definition after {A} (wait : Z) (n : nat) (actions : list (Action A))
    : Debounced A :=
  foldl (step wait) (debounce n) actions.

(** The arguments of the calls of the debounced function. *)
Definition invoked {A} (actions : list (Action A)) : list A :=
  omap (λ a, match a with Invoke args => Some args | Fire _ => None end) actions.

End Frontend.

(** ** Observations on the helpers *)

Module FrontendView.
Import Frontend.

(** The [init] object [fetchJSON] passes on. *)
Definition sent_by_fetchJSON (options : option Request) : Request :=
  {| fields := from_option fields ∅ options;
     headers :=
       Some (default ∅ (options ≫= headers)
             ∪ {[ lit "Content-Type" := lit "application/json" ]}) |}.

(** The requests among the effects. *)
Definition requests (l : list Effect) : list (Str * Request) :=
  omap (λ e, match e with Fetched url init => Some (url, init) | _ => None end) l.

(** The request [extractText] sends for [problemId]. *)
Definition extract_url {Id} (String_of : Id → Str) (problemId : Id) : Str :=
  lit "/problems/" ++ String_of problemId ++ lit "/extract".

Definition extract_init : Request :=
  {| fields := {[ lit "method" := lit "POST" ]}; headers := None |}.

End FrontendView.

(** ** Sample pages *)

Module FrontendSample.
Import Frontend.

(** JSON on booleans. *)
Definition bool_json : Json bool :=
  {| null := false;
     stringify := λ b, inr (Some (lit (if b then "true" else "false")));
     parse := λ s,
       if bool_decide (s = lit "true") then inr true
       else if bool_decide (s = lit "false") then inr false
       else inl "SyntaxError: Unexpected token" |}.

(** JSON on booleans and [undefined] ([None]), which has no JSON text. *)
Definition maybe_json : Json (option bool) :=
  {| null := Some false;
     stringify := λ v, inr ((λ b : bool, lit (if b then "true" else "false")) <$> v);
     parse := λ s,
       if bool_decide (s = lit "true") then inr (Some true)
       else if bool_decide (s = lit "false") then inr (Some false)
       else inl "SyntaxError: Unexpected token" |}.

Definition empty_storage : LocalStorage :=
  {| items := ∅; denied := None; quota := λ _, None |}.

(** A server that answers 404 with an HTML page. *)
Definition not_found {B} : Str → Request → Settle (Response B) :=
  λ _ _, Fulfilled {| ok := false; status := 404;
                      json := Rejected "SyntaxError: Unexpected token <" |}.

(** A server that answers with the body [b]. *)
Definition answers {B} (b : B) : Str → Request → Settle (Response B) :=
  λ _ _, Fulfilled {| ok := true; status := 200; json := Fulfilled b |}.

Definition extract_button : Button :=
  {| disabled := false; textContent := lit "텍스트 추출하기" |}.

(** A problem id, a whole number. *)
Definition id_text (n : N) : Str := lit (pretty n).

(** [{"success": false}] *)
Definition refusal : Data :=
  Body false
    (NotString (lit "undefined")
       "TypeError: Cannot read properties of undefined (reading 'substring')")
    Falsy.

Definition signup_form : list Field :=
  [ {| value := lit "kim"; borderColor := lit "" |};
    {| value := lit "  "; borderColor := lit "" |} ].

Definition january_5 : DateFields :=
  {| getFullYear := 2024; getMonth := 0; getDate := 5;
     getHours := 9; getMinutes := 30 |}.

End FrontendSample.

(** ** What [validateForm] is expected to compute *)

Module FormView.
Import Frontend.

(** A value with something else than white space in it. *)
Definition filled (s : Str) : bool := existsb (λ c, negb (is_space c)) s.

(** The field after validation: red border when blank, none otherwise. *)
Definition marked (field : Field) : Field :=
  {| value := value field;
     borderColor := if filled (value field) then lit "" else lit "#e74c3c" |}.

End FormView.

(** ** What [formatDate] is expected to print, and what [debounce] keeps *)

Module HelperView.
Import Frontend.

(** The decimal digit [n], for [n] below ten. *)
Definition digit (n : N) : Ascii.ascii := Ascii.ascii_of_N (48 + n).

(** [n] as two decimal digits, for [n] below one hundred. *)
Definition two_digits (n : N) : string :=
  String (digit (n `div` 10)) (String (digit (n `mod` 10)) "").

(** What holds of a debounced function after the actions [actions]:
    a pending timer is the one [timeout] names, carries the delay [wait]
    and the arguments of the latest call, which [func] has not received
    yet; [func] has received arguments of calls only, in their order. *)
Definition debounce_inv {A} (wait : Z) (actions : list (Action A))
    (st : Debounced A) : Prop :=
  (∀ id x, timers st !! id = Some x →
     timeout st = Some id
     ∧ x.2 = wait
     ∧ last (invoked actions) = Some x.1
     ∧ (calls st ++ [x.1]) `sublist_of` invoked actions)
  ∧ calls st `sublist_of` invoked actions.

End HelperView.

(** Unfolding of the helpers of the pages, down to the state they end in. *)
Ltac js_unfold :=
  cbv [Frontend.storage_set Frontend.storage_get Frontend.storage_remove
       Frontend.localStorage Frontend.setItem Frontend.getItem
       Frontend.removeItem Frontend.fetchJSON Frontend.extractText
       Frontend.validateForm Frontend.checkFileSize Frontend.copyToClipboard Frontend.set_disabled
       Frontend.set_textContent Frontend.set_problem_text Frontend.js_try_catch
       Frontend.js_try_catch_finally Frontend.js_when Frontend.js_call
       Frontend.js_await Frontend.showToast Frontend.console_error
       Frontend.js_get Frontend.js_put Frontend.js_emit
       Frontend.js_throw Frontend.js_hang Frontend.js_ret
       Frontend.js_bind Frontend.Js_bind Frontend.Js_ret
       Frontend.with_items
       mbind mret fst snd].

(** ** Proof support *)

(** Symbolic execution of the script: [run w] is unfolded inside a
    hypothesis and every answer of the world is split into its cases. *)
Ltac unfold_script_in H :=
  cbv [main generatePDF then_catch try_catch_finally when
       env_or fs_existsSync fs_readFileSync puppeteer_executablePath
       puppeteer_launch browser_newPage browser_close page_setContent
       page_evaluate_fonts_ready page_waitForTimeout page_pdf
       call_sync await console_log console_error process_exit
       emit throw hang ask get_browser set_browser ret bind
       mbind mret Proc_bind Proc_ret initial] in H.

Ltac answer_in H :=
  match type of H with
  | context [match ?x with _ => _ end] =>
      lazymatch x with
      | context [match _ with _ => _ end] => fail
      | negb ?b => destruct b eqn:?
      | _ => destruct x eqn:?
      end
  end.

(** The same split, on the goal. *)
Ltac answer :=
  match goal with
  | |- context [match ?x with _ => _ end] =>
      lazymatch x with
      | context [match _ with _ => _ end] => fail
      | negb ?b => destruct b eqn:?
      | _ => destruct x eqn:?
      end
  end.

Ltac string_tests :=
  repeat match goal with
    | E : String.eqb _ _ = true |- _ => apply String.eqb_eq in E
    | E : String.eqb _ _ = false |- _ => apply String.eqb_neq in E
    end.

Ltac run_cases w :=
  let res := fresh "res" in
  let Hrun := fresh "Hrun" in
  let Hargs := fresh "Hargs" in
  unfold events, completion, script_args in *;
  remember (run w) as res eqn:Hrun;
  unfold run in Hrun; unfold_script_in Hrun;
  destruct (drop 2 (argv (process w))) as [|? [|? [|? ?]]] eqn:Hargs;
  cbn in Hrun;
  repeat (answer_in Hrun; cbn in Hrun);
  string_tests;
  subst res;
  cbn [fst snd trace].

(** Membership in an explicit list of events. *)
Ltac elem_inv :=
  repeat match goal with
    | H : _ ∈ [] |- _ => by apply elem_of_nil in H
    | H : _ ∈ _ :: _ |- _ =>
        apply elem_of_cons in H as [H|H]; [try discriminate H|]
    end.

Ltac elem_find :=
  first [ apply list_elem_of_here | apply list_elem_of_further; elem_find ].

(** ** Argument handling and the missing input file *)

(** C3: with any number of arguments other than two the script prints the
    usage line on standard error and exits with status 1, having called
    nothing else (so no browser is launched); with exactly two arguments
    it runs [generatePDF] on the first as [htmlPath] and the second as
    [outputPath], followed by the two promise handlers. *)
Theorem argument_count_check (w : World) :
  (length (script_args w) ≠ 2%nat →
     events w = [Stderr "Usage: node pdf_render.js <html_path> <output_path>"]
     ∧ completion w = Exited 1)
  ∧ (∀ htmlPath outputPath,
       script_args w = [htmlPath; outputPath] →
       run w =
         then_catch (generatePDF htmlPath outputPath)
           (λ _, console_log "Done!" ;; process_exit 0)
           (λ error, console_error ("Fatal error: " +:+ error) ;; process_exit 1)
           w initial
       ∧ [Stdout "Starting PDF generation...";
          Stdout ("HTML: " +:+ htmlPath);
          Stdout ("Output: " +:+ outputPath)] `prefix_of` events w).
Proof.
  split.
  - intros Hlen. unfold events, completion, run, script_args in *.
    cbv [main mbind Proc_bind bind ask].
    destruct (drop 2 (argv (process w))) as [|a [|b [|c rest]]]; cbn in *;
      done.
  - intros h o Hargs.
    assert (Hmain : run w =
         then_catch (generatePDF h o)
           (λ _, console_log "Done!" ;; process_exit 0)
           (λ error, console_error ("Fatal error: " +:+ error) ;; process_exit 1)
           w initial).
    { unfold run, script_args in *. cbv [main mbind Proc_bind bind ask].
      rewrite Hargs. reflexivity. }
    split; [exact Hmain|].
    run_cases w; simplify_eq; eexists; reflexivity.
Qed.

Lemma argument_count_check_witness :
  events Sample.one_argument
    = [Stderr "Usage: node pdf_render.js <html_path> <output_path>"]
  ∧ completion Sample.one_argument = Exited 1.
Proof.
  apply (proj1 (argument_count_check Sample.one_argument)).
  vm_compute. discriminate.
Defined.

(** C2: when [htmlPath] does not exist the script reports
    "HTML file not found" on standard error and exits with status 1; it
    makes no call at all into Puppeteer (no browser is launched) and no
    file is written. *)
Theorem missing_html_reported (w : World) (htmlPath outputPath : string) :
  script_args w = [htmlPath; outputPath] →
  existsSync (fs w) htmlPath = false →
  events w =
    [ Stdout "Starting PDF generation...";
      Stdout ("HTML: " +:+ htmlPath);
      Stdout ("Output: " +:+ outputPath);
      FsExistsSync htmlPath false;
      Stderr ("HTML file not found: " +:+ htmlPath) ]
  ∧ completion w = Exited 1
  ∧ calls (events w) = []
  ∧ ∀ disk, disk_after (events w) disk = disk.
Proof.
  intros Hargs Hmissing.
  run_cases w; simplify_eq; try congruence.
  repeat split.
Qed.

Lemma missing_html_reported_witness :
  completion Sample.missing = Exited 1
  ∧ calls (events Sample.missing) = []
  ∧ disk_after (events Sample.missing) Sample.disk = Sample.disk.
Proof.
  destruct (missing_html_reported Sample.missing "missing.html" "out.pdf")
    as (_ & Hexit & Hcalls & Hdisk).
  - reflexivity.
  - vm_compute. reflexivity.
  - split; [exact Hexit|]. split; [exact Hcalls|]. apply Hdisk.
Defined.

(** ** Exit status *)

(** C4: the process ends through [process.exit] with status 0 or 1, or
    it hangs on a promise that never settles; the status is 0 exactly
    when the run succeeded, and it is 1 on an argument-count mismatch, on
    a missing input file and whenever a call (launch, load, waits,
    capture, close) threw or was rejected. *)
Theorem exit_code_is_0_or_1 (w : World) :
  (completion w = Exited 0 ∨ completion w = Exited 1 ∨ completion w = Hung)
  ∧ (completion w = Exited 0 ↔ succeeded (events w))
  ∧ (length (script_args w) ≠ 2%nat → completion w = Exited 1)
  ∧ (∀ htmlPath outputPath,
       script_args w = [htmlPath; outputPath] →
       existsSync (fs w) htmlPath = false →
       completion w = Exited 1)
  ∧ (∀ c e, Called c (Err e) ∈ events w → completion w = Exited 1).
Proof.
  run_cases w; split_and!.
  all: try (left; reflexivity).
  all: try (right; left; reflexivity).
  all: try (right; right; reflexivity).
  all: try (intros; reflexivity).
  all: try (intros Hlen; by destruct Hlen).
  all: try (intros; congruence).
  all: try (intros c e Hin; by elem_inv).
  all: split.
  all: try discriminate.
  all: try (intros [(p & d & Hw) Hall]; by elem_inv).
  all: try (match goal with
            | |- context [Called BrowserClose ?r] =>
                intros [_ Hall];
                assert (r = Ok) by (apply (Hall BrowserClose); elem_find)
            end; discriminate).
  all: intros _; split; [do 2 eexists; elem_find|].
  all: intros c r Hin; elem_inv; congruence.
Qed.

Lemma exit_code_is_0_or_1_witness :
  succeeded (events Sample.good)
  ∧ completion Sample.one_argument = Exited 1.
Proof.
  split.
  - apply (proj1 (proj2 (exit_code_is_0_or_1 Sample.good))). reflexivity.
  - apply (proj1 (proj2 (proj2 (exit_code_is_0_or_1 Sample.one_argument)))).
    vm_compute. discriminate.
Defined.

(** ** Releasing the browser *)

(** When the protected part throws and the handler ends the process, the
    [finally] block is not run. *)
Lemma catch_exit_skips_finally {A} (body : Proc A) (handler : Error → Proc A)
    (finalizer : Proc unit) (w : World) (s s1 s2 : State) (e : Error) (code : Z) :
  body w s = (s1, Thrown e) →
  handler e w s1 = (s2, Exited code) →
  try_catch_finally body handler finalizer w s = (s2, Exited code).
Proof.
  intros Hbody Hhandler. unfold try_catch_finally.
  rewrite Hbody, Hhandler. reflexivity.
Qed.

(** The browser is closed only on the path where the document was saved. *)
Lemma close_only_after_capture (w : World) (r : Outcome) :
  Called BrowserClose r ∈ events w → ∃ p d, FileWritten p d ∈ events w.
Proof.
  run_cases w; intros Hin.
  all: try by elem_inv.
  all: do 2 eexists; elem_find.
Qed.

(** C1: on [node pdf_render.js note.html /no/such/dir/out.pdf] the
    browser is launched, the capture is rejected, the [catch] block ends
    the process with status 1, and [browser.close()] is never called. *)
Theorem close_skipped_when_capture_fails :
  events Sample.unwritable =
    [ Stdout "Starting PDF generation...";
      Stdout "HTML: note.html";
      Stdout "Output: /no/such/dir/out.pdf";
      FsExistsSync "note.html" true;
      Called (PuppeteerLaunch
                {| LaunchOptions.headless := "new";
                   LaunchOptions.args := launch_args;
                   LaunchOptions.executablePath := "/usr/bin/chromium" |}) Ok;
      Stdout "Browser launched";
      Called BrowserNewPage Ok;
      Called (FsReadFileSync "note.html" "utf8") Ok;
      Called (PageSetContent "<p>1+1=2</p>" "networkidle0") Ok;
      Stdout "HTML loaded";
      Called PageEvaluateFontsReady Ok;
      Stdout "Fonts loaded";
      Called (PageWaitForTimeout 2000) Ok;
      Stdout "KaTeX rendered";
      Called (PagePdf (pdf_options "/no/such/dir/out.pdf"))
             (Err "ENOENT: no such file or directory");
      Stderr "Error generating PDF: ENOENT: no such file or directory" ]
  ∧ completion Sample.unwritable = Exited 1
  ∧ ∀ r, Called BrowserClose r ∉ events Sample.unwritable.
Proof.
  assert (Hev : events Sample.unwritable = _) by (vm_compute; reflexivity).
  split; [exact Hev|]. split; [vm_compute; reflexivity|].
  intros r Hin. rewrite Hev in Hin. by elem_inv.
Qed.

(** ** The requests sent to the browser *)

(** C5: every capture request asks for format A4 with backgrounds
    printed and margins 10mm / 15mm / 10mm / 10mm (top / bottom / left /
    right), names [outputPath] as the file to save to, and a file that is
    written is written there. *)
Theorem capture_request_options (w : World) (opts : PdfOptions.t) (r : Outcome) :
  Called (PagePdf opts) r ∈ events w →
  PdfOptions.format opts = "A4"
  ∧ PdfOptions.printBackground opts = true
  ∧ PdfOptions.margin opts =
      {| Margin.top := "10mm"; Margin.bottom := "15mm";
         Margin.left := "10mm"; Margin.right := "10mm" |}
  ∧ (∃ htmlPath, script_args w = [htmlPath; PdfOptions.path opts])
  ∧ ∀ p d, FileWritten p d ∈ events w → p = PdfOptions.path opts.
Proof.
  revert opts r. run_cases w; intros opts r Hin.
  all: try by elem_inv.
  all: elem_inv; simplify_eq; cbn.
  all: split_and!; try reflexivity; try by eexists.
  all: intros p d Hw; elem_inv; congruence.
Qed.

Lemma capture_request_options_witness :
  PdfOptions.format (pdf_options "out.pdf") = "A4"
  ∧ PdfOptions.printBackground (pdf_options "out.pdf") = true
  ∧ PdfOptions.margin (pdf_options "out.pdf") =
      {| Margin.top := "10mm"; Margin.bottom := "15mm";
         Margin.left := "10mm"; Margin.right := "10mm" |}
  ∧ (∃ htmlPath,
       script_args Sample.good = [htmlPath; PdfOptions.path (pdf_options "out.pdf")])
  ∧ ∀ p d, FileWritten p d ∈ events Sample.good →
           p = PdfOptions.path (pdf_options "out.pdf").
Proof.
  apply (capture_request_options Sample.good (pdf_options "out.pdf") Ok).
  vm_compute. elem_find.
Defined.

(** C7: the executable handed to [puppeteer.launch] is the value of
    PUPPETEER_EXECUTABLE_PATH when that variable is set and not empty
    (and then [puppeteer.executablePath()] is not even called); otherwise
    it is what [puppeteer.executablePath()] returned. *)
Theorem executable_path_override (w : World) (lo : LaunchOptions.t) (r : Outcome) :
  Called (PuppeteerLaunch lo) r ∈ events w →
  (∀ v, env (process w) !! "PUPPETEER_EXECUTABLE_PATH" = Some v → v ≠ "" →
        LaunchOptions.executablePath lo = v
        ∧ ∀ r', Called PuppeteerExecutablePath r' ∉ events w)
  ∧ (env (process w) !! "PUPPETEER_EXECUTABLE_PATH" = None
     ∨ env (process w) !! "PUPPETEER_EXECUTABLE_PATH" = Some "" →
     executablePath (puppeteer w) = inr (LaunchOptions.executablePath lo)).
Proof.
  revert lo r. run_cases w; intros lo r Hin.
  all: try by elem_inv.
  all: elem_inv; simplify_eq; cbn.
  all: split; [intros v Hv Hne | intros [Hv|Hv]]; try congruence.
  all: simplify_eq; split; [reflexivity|].
  all: intros r' Hin'; by elem_inv.
Qed.

Lemma executable_path_override_witness :
  LaunchOptions.executablePath
    {| LaunchOptions.headless := "new";
       LaunchOptions.args := launch_args;
       LaunchOptions.executablePath := "/usr/bin/chromium" |} = "/usr/bin/chromium"
  ∧ executablePath (puppeteer Sample.bundled) = inr "/cache/puppeteer/chrome".
Proof.
  split.
  - refine (proj1 (proj1 (executable_path_override Sample.good _ Ok _)
                     "/usr/bin/chromium" _ _)).
    + vm_compute. do 4 apply list_elem_of_further. apply list_elem_of_here.
    + reflexivity.
    + discriminate.
  - refine (proj2 (executable_path_override Sample.bundled
                     {| LaunchOptions.headless := "new";
                        LaunchOptions.args := launch_args;
                        LaunchOptions.executablePath := "/cache/puppeteer/chrome" |}
                     Ok _) _).
    + vm_compute. do 5 apply list_elem_of_further. apply list_elem_of_here.
    + left. reflexivity.
Defined.

(** ** Order of the waits *)

(** C6: the awaited page calls are made in the order set content
    (waiting for "networkidle0"), font readiness, a 2000 ms delay,
    capture; each one is started only after the one before it completed,
    and the HTML handed to the page is what was read from [htmlPath].  A
    capture request is therefore always preceded by the three completed
    waits.  Once the browser is launched, a page is opened and the HTML
    is read, the waits are carried out: setting the content is awaited,
    and each further step is made exactly when the step before it was
    fulfilled, so that a run in which the three waits are fulfilled has
    waited the 2000 ms and has requested the capture. *)
Theorem waits_are_sequential (w : World) (htmlPath outputPath : string) :
  script_args w = [htmlPath; outputPath] →
  (∃ html,
     (waits (events w) ≠ [] → readFileSync (fs w) htmlPath "utf8" = inr html)
     ∧ sequential (wait_plan html outputPath) (waits (events w)))
  ∧ (∀ opts r,
       (PagePdf opts, r) ∈ waits (events w) →
       ∃ html,
         waits (events w) =
           [ (PageSetContent html "networkidle0", Ok);
             (PageEvaluateFontsReady, Ok);
             (PageWaitForTimeout 2000, Ok);
             (PagePdf (pdf_options outputPath), r) ])
  ∧ (∀ lo b pg html,
       Called (PuppeteerLaunch lo) Ok ∈ events w →
       launch (puppeteer w) lo = Fulfilled b →
       newPage b = Fulfilled pg →
       readFileSync (fs w) htmlPath "utf8" = inr html →
       waits (events w) =
         performed pg
           [ PageSetContent html "networkidle0";
             PageEvaluateFontsReady;
             PageWaitForTimeout 2000;
             PagePdf (pdf_options outputPath) ]
       ∧ (setContent pg html "networkidle0" = Fulfilled tt →
          evaluate_fonts_ready pg = Fulfilled tt →
          waitForTimeout pg 2000 = Fulfilled tt →
          waits (events w) =
            [ (PageSetContent html "networkidle0", Ok);
              (PageEvaluateFontsReady, Ok);
              (PageWaitForTimeout 2000, Ok);
              (PagePdf (pdf_options outputPath),
               settled (pdf pg (pdf_options outputPath))) ])).
Proof.
  run_cases w; intros Heq; simplify_eq; cbn.
  all: split;
    [ match goal with
      | H : readFileSync _ _ _ = inr ?html |- _ => exists html
      | _ => exists ""
      end;
      split; [first [done | intros _; assumption]|];
      repeat split; auto
    | split;
      [ intros opts r Hin; elem_inv; simplify_eq; eexists; reflexivity
      | intros lo b pg html Hin Hlaunch Hpage Hread ] ].
  all: try by elem_inv.
  all: elem_inv; simplify_eq.
  all: repeat match goal with
         | H1 : ?x = _, H2 : ?x = _ |- _ => rewrite H1 in H2; simplify_eq
         end.
  all: try congruence.
  all: split; [|intros Hset Hfonts Hwait].
  all: repeat match goal with
         | H1 : ?x = _, H2 : ?x = _ |- _ => rewrite H1 in H2; simplify_eq
         end.
  all: try congruence.
  all: cbn.
  all: repeat match goal with
         | H : ?x = _ |- context [?x] => rewrite H; cbn
         end.
  all: reflexivity.
Qed.

Lemma waits_are_sequential_witness :
  waits (events Sample.good) =
    [ (PageSetContent "<p>1+1=2</p>" "networkidle0", Ok);
      (PageEvaluateFontsReady, Ok);
      (PageWaitForTimeout 2000, Ok);
      (PagePdf (pdf_options "out.pdf"), Ok) ].
Proof.
  refine (proj2 (proj2 (proj2
            (waits_are_sequential Sample.good "note.html" "out.pdf" eq_refl))
            (LaunchOptions.mk "new" launch_args "/usr/bin/chromium")
            (Sample.chromium (Fulfilled "%PDF-1.4"))
            (Sample.page (Fulfilled "%PDF-1.4")) "<p>1+1=2</p>"
            _ eq_refl eq_refl eq_refl) eq_refl eq_refl eq_refl).
  vm_compute. elem_find.
Defined.

(** ** Effects on files *)

Lemma elem_of_writes (tr : list Event) (p d : string) :
  (p, d) ∈ writes tr ↔ FileWritten p d ∈ tr.
Proof.
  unfold writes. rewrite list_elem_of_omap. split.
  - intros (ev & Hin & Hev). destruct ev; simplify_eq. exact Hin.
  - intros Hin. exists (FileWritten p d). split; [exact Hin | reflexivity].
Qed.

(** A path that is not written keeps its content. *)
Lemma disk_after_untouched (tr : list Event) (disk : gmap string string) (p : string) :
  (∀ d, FileWritten p d ∉ tr) →
  disk_after tr disk !! p = disk !! p.
Proof.
  intros Hfree. unfold disk_after.
  assert (Hw : ∀ d, (p, d) ∉ writes tr)
    by (intros d Hin; apply (Hfree d), elem_of_writes, Hin).
  clear Hfree. revert disk.
  induction (writes tr) as [|[q x] ws IH]; intros disk; cbn; [reflexivity|].
  rewrite IH.
  - apply lookup_insert_ne. intros ->. apply (Hw x). left.
  - intros d Hin. apply (Hw d). right. exact Hin.
Qed.

(** C8 without the side condition does not hold.  The file at
    [htmlPath] is not left unchanged by every run: when both
    arguments name the same file, as in
    [node pdf_render.js note.html note.html], the HTML is replaced by the
    document. *)
Lemma input_overwritten_when_paths_coincide :
  script_args Sample.same_path = ["note.html"; "note.html"]
  ∧ completion Sample.same_path = Exited 0
  ∧ Sample.disk !! "note.html" = Some "<p>1+1=2</p>"
  ∧ disk_after (events Sample.same_path) Sample.disk !! "note.html"
      = Some "%PDF-1.4"
  ∧ ¬ (∀ w htmlPath outputPath disk,
         script_args w = [htmlPath; outputPath] →
         disk_after (events w) disk !! htmlPath = disk !! htmlPath).
Proof.
  assert (Hafter : disk_after (events Sample.same_path) Sample.disk !! "note.html"
                   = Some "%PDF-1.4") by (vm_compute; reflexivity).
  split_and!; try (vm_compute; reflexivity).
  intros Hall.
  specialize (Hall Sample.same_path "note.html" "note.html" Sample.disk eq_refl).
  rewrite Hafter in Hall. vm_compute in Hall. discriminate Hall.
Qed.

(** C8, amended: the only file the script reads is [htmlPath], as UTF-8;
    the only path it writes is [outputPath], so every other file keeps
    its content, the file at [htmlPath] included whenever the two paths
    differ; a successful run writes exactly one file, at [outputPath]. *)
Theorem only_output_path_written (w : World) (htmlPath outputPath : string) :
  script_args w = [htmlPath; outputPath] →
  (∀ p enc r, Called (FsReadFileSync p enc) r ∈ events w →
              p = htmlPath ∧ enc = "utf8")
  ∧ (∀ p d, FileWritten p d ∈ events w → p = outputPath)
  ∧ (∀ disk p, p ≠ outputPath → disk_after (events w) disk !! p = disk !! p)
  ∧ (htmlPath ≠ outputPath →
     ∀ disk, disk_after (events w) disk !! htmlPath = disk !! htmlPath)
  ∧ (completion w = Exited 0 → ∃ d, writes (events w) = [(outputPath, d)]).
Proof.
  intros Hargs.
  assert (Hwr : ∀ p d, FileWritten p d ∈ events w → p = outputPath).
  { revert Hargs. run_cases w; intros Heq p d Hin; simplify_eq.
    all: elem_inv; congruence. }
  assert (Hframe : ∀ disk p, p ≠ outputPath →
                   disk_after (events w) disk !! p = disk !! p).
  { intros disk p Hne. apply disk_after_untouched.
    intros d Hin. apply Hne, (Hwr p d Hin). }
  split; [|split; [exact Hwr|split; [exact Hframe|split]]];
    [| intros Hne disk; by apply Hframe |].
  - revert Hargs. run_cases w; intros Heq p enc r Hin; simplify_eq.
    all: elem_inv; simplify_eq; done.
  - clear Hwr Hframe. revert Hargs.
    run_cases w; intros Heq Hexit; simplify_eq.
    all: eexists; reflexivity.
Qed.

Lemma only_output_path_written_witness :
  disk_after (events Sample.good) Sample.disk !! "note.html"
  = Sample.disk !! "note.html".
Proof.
  refine (proj1 (proj2 (proj2 (proj2
            (only_output_path_written Sample.good "note.html" "out.pdf" eq_refl))))
            _ Sample.disk).
  discriminate.
Defined.

(** ** Closing before exit, and the unchecked output path *)

(** C9: the process exits with status 0 only after [browser.close()]
    on the launched browser has completed; between the two only "Done!"
    is printed. *)
Theorem exit_0_only_after_close (w : World) :
  completion w = Exited 0 →
  ∃ before lo,
    events w = before ++ [Called BrowserClose Ok; Stdout "Done!"]
    ∧ Called (PuppeteerLaunch lo) Ok ∈ before.
Proof.
  run_cases w; intros Hexit; try discriminate Hexit.
  all: match goal with
       | |- ∃ before lo, ?l = _ ∧ _ =>
           exists (take (length l - 2) l); cbn; eexists;
           split; [reflexivity | elem_find]
       end.
Qed.

Lemma exit_0_only_after_close_witness :
  ∃ before lo,
    events Sample.good = before ++ [Called BrowserClose Ok; Stdout "Done!"]
    ∧ Called (PuppeteerLaunch lo) Ok ∈ before.
Proof.
  apply (exit_0_only_after_close Sample.good). reflexivity.
Defined.

(** Up to the capture request, what [generatePDF] asks of the world does
    not depend on [outputPath]. *)
Lemma output_path_unused_before_capture (w : World) (htmlPath o1 o2 : string) :
  before_capture (trace (generatePDF htmlPath o1 w initial).1)
  = before_capture (trace (generatePDF htmlPath o2 w initial).1).
Proof.
  cbv [generatePDF try_catch_finally when
       env_or fs_existsSync fs_readFileSync puppeteer_executablePath
       puppeteer_launch browser_newPage browser_close page_setContent
       page_evaluate_fonts_ready page_waitForTimeout page_pdf
       call_sync await console_log console_error process_exit
       emit throw hang ask get_browser set_browser ret bind
       mbind mret Proc_bind Proc_ret initial].
  cbn. repeat (answer; cbn); reflexivity.
Qed.

(** C10: nothing looks at [outputPath] before the capture request; a
    capture that is rejected (say, because the directory of [outputPath]
    does not exist) comes after the launch, the load and the three
    waits have completed, nothing has been written, and the error is
    caught, reported and turned into exit status 1. *)
Theorem output_path_checked_at_capture_only (w : World) (htmlPath outputPath : string) :
  script_args w = [htmlPath; outputPath] →
  (∀ o1 o2,
     before_capture (trace (generatePDF htmlPath o1 w initial).1)
     = before_capture (trace (generatePDF htmlPath o2 w initial).1))
  ∧ (∀ e,
       Called (PagePdf (pdf_options outputPath)) (Err e) ∈ events w →
       completion w = Exited 1
       ∧ writes (events w) = []
       ∧ ∃ before lo html,
           events w =
             before ++ [ Called (PagePdf (pdf_options outputPath)) (Err e);
                         Stderr ("Error generating PDF: " +:+ e) ]
           ∧ Called (PuppeteerLaunch lo) Ok ∈ before
           ∧ waits before =
               [ (PageSetContent html "networkidle0", Ok);
                 (PageEvaluateFontsReady, Ok);
                 (PageWaitForTimeout 2000, Ok) ]).
Proof.
  intros Hargs. split; [intros; apply output_path_unused_before_capture|].
  revert Hargs. run_cases w; intros Heq e' Hin; simplify_eq.
  all: try by elem_inv.
  all: elem_inv; simplify_eq.
  all: split; [reflexivity|]; split; [reflexivity|].
  all: match goal with
       | |- ∃ before lo html, ?l = _ ∧ _ =>
           exists (take (length l - 2) l); cbn; do 2 eexists;
           split; [reflexivity|]; split; [elem_find | reflexivity]
       end.
Qed.

Lemma output_path_checked_at_capture_only_witness :
  completion Sample.unwritable = Exited 1
  ∧ writes (events Sample.unwritable) = [].
Proof.
  destruct (output_path_checked_at_capture_only Sample.unwritable
              "note.html" "/no/such/dir/out.pdf" eq_refl) as [_ Hlate].
  destruct (Hlate "ENOENT: no such file or directory") as (Hexit & Hwrites & _).
  - vm_compute. do 14 apply list_elem_of_further. apply list_elem_of_here.
  - split; [exact Hexit | exact Hwrites].
Defined.

(** ** Further properties of the renderer *)

(** X1: every launch request asks for the new headless mode and passes
    the same six switches, the sandbox being disabled among them. *)
Theorem launch_request_options (w : World) (lo : LaunchOptions.t) (r : Outcome) :
  Called (PuppeteerLaunch lo) r ∈ events w →
  LaunchOptions.headless lo = "new"
  ∧ LaunchOptions.args lo =
      [ "--no-sandbox"; "--disable-setuid-sandbox"; "--disable-dev-shm-usage";
        "--disable-gpu"; "--disable-software-rasterizer"; "--disable-extensions" ].
Proof.
  revert lo r. run_cases w; intros lo r Hin.
  all: try by elem_inv.
  all: elem_inv; simplify_eq; split; reflexivity.
Qed.

Lemma launch_request_options_witness :
  LaunchOptions.headless
    (LaunchOptions.mk "new" launch_args "/usr/bin/chromium") = "new"
  ∧ LaunchOptions.args
      (LaunchOptions.mk "new" launch_args "/usr/bin/chromium") =
      [ "--no-sandbox"; "--disable-setuid-sandbox"; "--disable-dev-shm-usage";
        "--disable-gpu"; "--disable-software-rasterizer"; "--disable-extensions" ].
Proof.
  apply (launch_request_options Sample.good _ Ok).
  vm_compute. elem_find.
Defined.

(** X2: a run makes a single attempt: at most one browser is launched,
    at most one capture is requested, [browser.close()] is called at most
    once and at most one file is written. *)
Theorem single_attempt (w : World) :
  (times is_launch (events w) ≤ 1)%nat
  ∧ (times is_capture (events w) ≤ 1)%nat
  ∧ (times is_close (events w) ≤ 1)%nat
  ∧ (length (writes (events w)) ≤ 1)%nat.
Proof.
  run_cases w; cbn; lia.
Qed.

(** X3: a run that ends with status 1 has called [console.error]
    exactly once, as its last action; a run that ends otherwise (status
    0, or hanging) has not called it at all. *)
Theorem one_console_error_iff_exit_1 (w : World) :
  (completion w = Exited 1 →
     ∃ before message,
       events w = before ++ [Stderr message] ∧ console_error_calls before = [])
  ∧ (completion w ≠ Exited 1 → console_error_calls (events w) = []).
Proof.
  run_cases w; split; intros Hc; try done.
  all: match goal with
       | |- ∃ before message, ?l = _ ∧ _ =>
           exists (take (length l - 1) l); cbn; eexists;
           split; reflexivity
       end.
Qed.

Lemma one_console_error_iff_exit_1_witness :
  (∃ before message,
     events Sample.missing = before ++ [Stderr message]
     ∧ console_error_calls before = [])
  ∧ console_error_calls (events Sample.good) = [].
Proof.
  split.
  - apply (proj1 (one_console_error_iff_exit_1 Sample.missing)). reflexivity.
  - apply (proj2 (one_console_error_iff_exit_1 Sample.good)). discriminate.
Defined.

(** X4: when [browser.close()] is rejected the document has already been
    saved at [outputPath]; the rejection leaves [generatePDF], reaches
    the [.catch] handler, is reported as "Fatal error" and the process
    ends with status 1. *)
Theorem close_failure_after_save (w : World) (e : Error) :
  Called BrowserClose (Err e) ∈ events w →
  completion w = Exited 1
  ∧ (∃ htmlPath outputPath data,
       script_args w = [htmlPath; outputPath]
       ∧ writes (events w) = [(outputPath, data)])
  ∧ ∃ before,
      events w =
        before ++ [Called BrowserClose (Err e); Stderr ("Fatal error: " +:+ e)].
Proof.
  revert e. run_cases w; intros e' Hin.
  all: try by elem_inv.
  all: elem_inv; simplify_eq.
  all: split; [reflexivity|]; split; [by do 3 eexists|].
  all: match goal with
       | |- ∃ before, ?l = _ =>
           exists (take (length l - 2) l); reflexivity
       end.
Qed.

Lemma close_failure_after_save_witness :
  completion Scenario.close_fails = Exited 1
  ∧ ∃ htmlPath outputPath data,
      script_args Scenario.close_fails = [htmlPath; outputPath]
      ∧ writes (events Scenario.close_fails) = [(outputPath, data)].
Proof.
  destruct (close_failure_after_save Scenario.close_fails
              "Protocol error: Target closed") as (Hexit & Hsaved & _).
  - vm_compute. elem_find.
  - split; [exact Hexit | exact Hsaved].
Defined.

(** X5: the process hangs exactly when the last thing it did is a call
    whose promise never settles; every such call hangs it, and a hanging
    run has not closed the browser unless [browser.close()] itself is the
    call that is pending. *)
Theorem hangs_iff_call_pending (w : World) :
  (completion w = Hung ↔ ∃ c, last (events w) = Some (Called c Pending))
  ∧ (∀ c, Called c Pending ∈ events w → completion w = Hung)
  ∧ (completion w = Hung → ∀ r, Called BrowserClose r ∈ events w → r = Pending).
Proof.
  run_cases w; cbn; split_and!.
  all: try (split; [try discriminate; intros _; by eexists
                   | try reflexivity; intros [c Hc]; discriminate Hc]).
  all: try (intros c Hin; first [reflexivity | by elem_inv]).
  all: try (intros Hc; discriminate Hc).
  all: intros _ r Hin; elem_inv; congruence.
Qed.

Lemma hangs_iff_call_pending_witness :
  completion Scenario.fonts_never_ready = Hung.
Proof.
  apply (proj1 (proj2 (hangs_iff_call_pending Scenario.fonts_never_ready))
           PageEvaluateFontsReady).
  vm_compute. elem_find.
Defined.

(** X6: when PUPPETEER_EXECUTABLE_PATH is unset or empty and
    [puppeteer.executablePath()] throws, no launch is attempted: the
    error is reported as "Error generating PDF" and the process ends with
    status 1. *)
Theorem fallback_failure_reported (w : World) (htmlPath outputPath : string)
    (e : Error) :
  script_args w = [htmlPath; outputPath] →
  existsSync (fs w) htmlPath = true →
  env (process w) !! "PUPPETEER_EXECUTABLE_PATH" = None
  ∨ env (process w) !! "PUPPETEER_EXECUTABLE_PATH" = Some "" →
  executablePath (puppeteer w) = inl e →
  events w =
    [ Stdout "Starting PDF generation...";
      Stdout ("HTML: " +:+ htmlPath);
      Stdout ("Output: " +:+ outputPath);
      FsExistsSync htmlPath true;
      Called PuppeteerExecutablePath (Err e);
      Stderr ("Error generating PDF: " +:+ e) ]
  ∧ completion w = Exited 1
  ∧ times is_launch (events w) = 0%nat.
Proof.
  run_cases w; intros Heq Hex Henv Hexe; simplify_eq;
    destruct Henv; simplify_eq; try congruence.
  all: repeat split.
Qed.

Lemma fallback_failure_reported_witness :
  completion Scenario.no_browser = Exited 1
  ∧ times is_launch (events Scenario.no_browser) = 0%nat.
Proof.
  destruct (fallback_failure_reported Scenario.no_browser "note.html" "out.pdf"
              "Could not find Chrome") as (_ & Hexit & Hlaunch).
  - reflexivity.
  - vm_compute. reflexivity.
  - left. reflexivity.
  - reflexivity.
  - split; [exact Hexit | exact Hlaunch].
Defined.

(** X7: [browser.close()] is called exactly in the runs that saved the
    document, and "PDF generated successfully!" and "Done!" are printed
    exactly when the document was saved and when the process ends with
    status 0. *)
Theorem close_and_progress_lines (w : World) :
  ((∃ r, Called BrowserClose r ∈ events w) ↔ writes (events w) ≠ [])
  ∧ (Stdout "PDF generated successfully!" ∈ events w ↔ writes (events w) ≠ [])
  ∧ (Stdout "Done!" ∈ events w ↔ completion w = Exited 0).
Proof.
  run_cases w; cbn; split_and!; split.
  all: try (intros [r Hin]; by elem_inv).
  all: try (intros Hin; by elem_inv).
  all: try done.
  all: try (intros _; eexists; elem_find).
  all: try (intros _; elem_find).
Qed.

(** * Properties of frontend/static/js/main.js *)

Import Frontend FrontendView.

(** ** storage *)

(** X8: [storage.set], [storage.get] and [storage.remove] never throw,
    whatever [localStorage] and [JSON] do: each either does its work and
    prints nothing, or leaves the items as they were and prints exactly
    one console error; a [get] that fails answers [null]. *)
Theorem storage_never_throws {V} (JSON : Json V) (key : Str) (value : V)
    (st : LocalStorage) (log : list Effect) :
  (∃ st' log',
     storage_set JSON key value (st, log) = ((st', log'), Normal tt)
     ∧ ((log' = log ∧ ∃ text, items st' = <[key := text]> (items st))
        ∨ (st' = st ∧ ∃ e, log' = log ++ [ConsoleError (lit "LocalStorage 저장 실패:") e])))
  ∧ (∃ log' v,
       storage_get JSON key (st, log) = ((st, log'), Normal v)
       ∧ (log' = log
          ∨ (v = null JSON
             ∧ ∃ e, log' = log ++ [ConsoleError (lit "LocalStorage 읽기 실패:") e])))
  ∧ (∃ st' log',
       storage_remove key (st, log) = ((st', log'), Normal tt)
       ∧ ((log' = log ∧ items st' = delete key (items st))
          ∨ (st' = st ∧ ∃ e, log' = log ++ [ConsoleError (lit "LocalStorage 삭제 실패:") e]))).
Proof.
  split_and!; js_unfold; cbn.
  - destruct (denied st) as [e|]; cbn; [by eauto 10|].
    destruct (stringify JSON value) as [e|text]; cbn; [by eauto 10|].
    destruct (quota st _) as [e|]; cbn; by eauto 10.
  - destruct (denied st) as [e|]; cbn; [by eauto 10|].
    destruct (items st !! key) as [text|]; cbn; [|by eauto].
    destruct (truthy text); cbn; [|by eauto].
    destruct (parse JSON text) as [e|v]; cbn; by eauto 10.
  - destruct (denied st) as [e|]; cbn; by eauto 10.
Qed.

(** X9: a value that was stored is read back: when storage is usable,
    the text of the value fits and [JSON.parse] inverts
    [JSON.stringify] on it, [get] after [set] answers the value, prints
    nothing, and the other keys keep their items. *)
Theorem storage_get_after_set {V} (JSON : Json V) (key text : Str) (value : V)
    (st : LocalStorage) (log : list Effect) :
  denied st = None →
  stringify JSON value = inr (Some text) →
  text ≠ [] →
  quota st (<[key := text]> (items st)) = None →
  parse JSON text = inr value →
  ∃ st',
    storage_set JSON key value (st, log) = ((st', log), Normal tt)
    ∧ storage_get JSON key (st', log) = ((st', log), Normal value)
    ∧ ∀ key', key' ≠ key → items st' !! key' = items st !! key'.
Proof.
  intros Hden Hstr Hne Hq Hparse.
  exists (with_items st (<[key := text]> (items st))).
  js_unfold; cbn. rewrite Hden, Hstr; cbn. rewrite Hq; cbn. rewrite Hden; cbn.
  rewrite lookup_insert_eq; cbn.
  destruct text as [|c text]; [done|]; cbn. rewrite Hparse; cbn.
  split_and!; try reflexivity.
  intros key' Hk. by rewrite lookup_insert_ne.
Qed.

Lemma storage_get_after_set_witness :
  ∃ st',
    storage_set FrontendSample.bool_json (lit "dark") true
      (FrontendSample.empty_storage, []) = ((st', []), Normal tt)
    ∧ storage_get FrontendSample.bool_json (lit "dark") (st', [])
      = ((st', []), Normal true)
    ∧ ∀ key', key' ≠ lit "dark" →
        items st' !! key' = items FrontendSample.empty_storage !! key'.
Proof.
  apply (storage_get_after_set FrontendSample.bool_json (lit "dark") (lit "true")).
  - reflexivity.
  - reflexivity.
  - discriminate.
  - reflexivity.
  - vm_compute. reflexivity.
Defined.

(** X10: after [storage.remove], and for a key that was never stored or
    holds the empty text, [storage.get] answers [null] without calling
    [JSON.parse] and without printing; removing a key leaves the others
    alone. *)
Theorem storage_get_absent {V} (JSON : Json V) (key : Str)
    (st : LocalStorage) (log : list Effect) :
  denied st = None →
  (items st !! key = None ∨ items st !! key = Some [] →
   storage_get JSON key (st, log) = ((st, log), Normal (null JSON)))
  ∧ ∃ st',
      storage_remove key (st, log) = ((st', log), Normal tt)
      ∧ storage_get JSON key (st', log) = ((st', log), Normal (null JSON))
      ∧ ∀ key', key' ≠ key → items st' !! key' = items st !! key'.
Proof.
  intros Hden. split.
  - intros Hitem. js_unfold; cbn. rewrite Hden; cbn.
    destruct (items st !! key) as [text|] eqn:E; [|reflexivity].
    destruct Hitem as [H|H]; simplify_eq. reflexivity.
  - exists (with_items st (delete key (items st))).
    js_unfold; cbn. rewrite Hden; cbn. rewrite Hden; cbn.
    rewrite lookup_delete_eq; cbn.
    split_and!; try reflexivity.
    intros key' Hk. by rewrite lookup_delete_ne.
Qed.

Lemma storage_get_absent_witness :
  storage_get FrontendSample.bool_json (lit "dark")
    (FrontendSample.empty_storage, [])
  = ((FrontendSample.empty_storage, []), Normal false).
Proof.
  apply (proj1 (storage_get_absent FrontendSample.bool_json (lit "dark")
                  FrontendSample.empty_storage [] eq_refl)).
  left. reflexivity.
Defined.

(** X11: a value for which [JSON.stringify] returns [undefined] is
    stored as the text "undefined"; as [JSON.parse] rejects that text,
    reading it back prints a console error and answers [null]. *)
Theorem storage_undefined_reads_null {V} (JSON : Json V) (key : Str) (value : V)
    (st : LocalStorage) (log : list Effect) (e : Error) :
  denied st = None →
  stringify JSON value = inr None →
  quota st (<[key := lit "undefined"]> (items st)) = None →
  parse JSON (lit "undefined") = inl e →
  ∃ st',
    storage_set JSON key value (st, log) = ((st', log), Normal tt)
    ∧ items st' !! key = Some (lit "undefined")
    ∧ storage_get JSON key (st', log)
      = ((st', log ++ [ConsoleError (lit "LocalStorage 읽기 실패:") e]),
         Normal (null JSON)).
Proof.
  intros Hden Hstr Hq Hparse.
  exists (with_items st (<[key := lit "undefined"]> (items st))).
  js_unfold; cbn. rewrite Hden, Hstr; cbn.
  change (utf8_points _ ≫= utf16_units) with (lit "undefined").
  rewrite Hq; cbn. rewrite Hden; cbn. rewrite lookup_insert_eq; cbn.
  split_and!; try reflexivity.
  change [117; 110; 100; 101; 102; 105; 110; 101; 100]%N with (lit "undefined").
  rewrite Hparse. reflexivity.
Qed.

Lemma storage_undefined_reads_null_witness :
  ∃ st',
    storage_set FrontendSample.maybe_json (lit "dark") None
      (FrontendSample.empty_storage, []) = ((st', []), Normal tt)
    ∧ items st' !! lit "dark" = Some (lit "undefined")
    ∧ storage_get FrontendSample.maybe_json (lit "dark") (st', [])
      = ((st', [] ++ [ConsoleError (lit "LocalStorage 읽기 실패:")
                        "SyntaxError: Unexpected token"]),
         Normal (null FrontendSample.maybe_json)).
Proof.
  apply (storage_undefined_reads_null FrontendSample.maybe_json (lit "dark") None
           FrontendSample.empty_storage [] "SyntaxError: Unexpected token").
  - reflexivity.
  - reflexivity.
  - reflexivity.
  - vm_compute. reflexivity.
Defined.

(** ** fetchJSON *)

Lemma toasts_app (l1 l2 : list Effect) : toasts (l1 ++ l2) = toasts l1 ++ toasts l2.
Proof. apply omap_app. Qed.

Lemma console_errors_app (l1 l2 : list Effect) :
  console_errors (l1 ++ l2) = console_errors l1 ++ console_errors l2.
Proof. apply omap_app. Qed.

Lemma requests_app (l1 l2 : list Effect) :
  requests (l1 ++ l2) = requests l1 ++ requests l2.
Proof. apply omap_app. Qed.

(** X12: called without options, or with a plain options object whose
    headers are absent or a plain object, [fetchJSON] sends exactly one
    request: to the given URL, with the caller's fields unchanged and
    with headers in which every header of the caller keeps its value,
    "Content-Type" is "application/json" unless the caller set it, and
    nothing else is added. *)
Theorem fetchJSON_request {S B} (fetch : Str → Request → Settle (Response B))
    (url : Str) (options : option Request) (s : S) (log : list Effect) :
  ∃ sent,
    requests (fetchJSON fetch url options (s, log)).1.2
      = requests log
        ++ [(url, {| fields := from_option fields ∅ options;
                     headers := Some sent |})]
    ∧ ∀ name,
        sent !! name =
          match (default ∅ (options ≫= headers)) !! name with
          | Some v => Some v
          | None =>
              if decide (name = lit "Content-Type")
              then Some (lit "application/json") else None
          end.
Proof.
  exists (default ∅ (options ≫= headers)
          ∪ {[ lit "Content-Type" := lit "application/json" ]}).
  split.
  - destruct options as [[fs hs]|]; js_unfold; cbn.
    all: destruct (fetch url _) as [[isok st body]| e |]; cbn;
      [destruct isok; cbn; [destruct body as [b|e|]; cbn|]| |].
    all: rewrite ?requests_app; cbn; rewrite ?app_nil_r; reflexivity.
  - intros name. rewrite lookup_union.
    destruct (default ∅ (options ≫= headers) !! name) as [v|] eqn:E; cbn.
    + by destruct ({[_ := _]} !! name).
    + destruct (decide (name = lit "Content-Type")) as [->|Hne].
      * by rewrite lookup_singleton_eq.
      * by rewrite lookup_singleton_ne.
Qed.

(** X13: [fetchJSON] answers the parsed body exactly when the request
    is fulfilled with an [ok] response whose body parses; it then shows
    and prints nothing.  A rejected request, a response that is not [ok]
    (reported as "HTTP error! status: ..." without reading the body) and
    a body that fails to parse are each printed on the console, shown as
    one error toast and thrown on to the caller. *)
Theorem fetchJSON_outcome {S B} (fetch : Str → Request → Settle (Response B))
    (url : Str) (options : option Request) (s : S) (log : list Effect) :
  let sent := sent_by_fetchJSON options in
  let failed (e : Error) :=
    ((s, log ++ [ Fetched url sent;
                  ConsoleError (lit "Fetch 오류:") e;
                  Toast (lit "서버 요청에 실패했습니다.") (lit "error") ]),
     Thrown e) in
  fetchJSON fetch url options (s, log) =
    match fetch url sent with
    | Fulfilled response =>
        if ok response then
          match json response with
          | Fulfilled b => ((s, log ++ [Fetched url sent]), Normal b)
          | Rejected e => failed e
          | Unsettled => ((s, log ++ [Fetched url sent]), Hung)
          end
        else failed ("Error: HTTP error! status: " +:+ pretty (status response))
    | Rejected e => failed e
    | Unsettled => ((s, log ++ [Fetched url sent]), Hung)
    end.
Proof.
  unfold sent_by_fetchJSON.
  destruct options as [[fs hs]|]; js_unfold; cbn.
  all: destruct (fetch url _) as [[isok st body]| e |]; cbn;
    [destruct isok; cbn; [destruct body as [b|e|]; cbn|]| |].
  all: rewrite <- ?app_assoc; reflexivity.
Qed.

(** ** extractText *)

(** X14: [extractText] rejects only when the clicked button cannot be
    read from the event, and it then does nothing else.  Otherwise,
    whenever it comes to an end it ends normally, the clicked button is
    enabled again with the label it had, and exactly one toast was
    shown; it does not come to an end only while the request or its body
    is pending, and the button then stays disabled with the label
    "⏳ 추출 중...". *)
Theorem extractText_restores_button {Id} (String_of : Id → Str)
    (fetch : Str → Request → Settle (Response Data)) (problemId : Id)
    (page : ExtractPage) (log : list Effect) :
  match target page with
  | inl e =>
      extractText String_of fetch problemId (page, log) = ((page, log), Thrown e)
  | inr button =>
      ∃ page' log',
        (extractText String_of fetch problemId (page, log)).1 = (page', log')
        ∧ match (extractText String_of fetch problemId (page, log)).2 with
          | Normal _ =>
              target page' = inr {| disabled := false;
                                    textContent := textContent button |}
              ∧ length (toasts log') = S (length (toasts log))
          | Hung =>
              target page' = inr {| disabled := true;
                                    textContent := lit "⏳ 추출 중..." |}
              ∧ problem_text page' = problem_text page
              ∧ toasts log' = toasts log
              ∧ (fetch (extract_url String_of problemId) extract_init = Unsettled
                 ∨ ∃ response,
                     fetch (extract_url String_of problemId) extract_init
                       = Fulfilled response
                     ∧ json response = Unsettled)
          | _ => False
          end
  end.
Proof.
  unfold extract_url, extract_init.
  destruct page as [[e|button] area]; cbn [target problem_text].
  - js_unfold. reflexivity.
  - js_unfold. cbn.
    destruct (fetch _ _) as [[isok st body]| e |] eqn:Hfetch; cbn;
      [destruct body as [[e|[] [text|shown e] err]|e|] eqn:Hbody; cbn;
         try (destruct area as [old|]; cbn)| |].
    all: do 2 eexists; split; [reflexivity|]; cbn.
    all: rewrite ?toasts_app, ?length_app, ?app_nil_r; cbn.
    all: split_and?; try reflexivity; try lia; eauto.
Qed.

(** X15: what [extractText] does with the answer once the request and
    its body are fulfilled, the status of the response playing no part.
    When [success] is truthy and the page has the textarea, the text
    goes into it whole and the success toast is shown; without the
    textarea the toast shows the first 50 code units of the text,
    always followed by "...", and a text that is not a string is
    reported as an error instead.  When [success] is falsy the error
    toast shows the error, or "알 수 없는 오류" when the error is falsy,
    and the textarea is left alone.  A [null] body is reported as an
    error.  In every case the button is restored. *)
Theorem extractText_answer {Id} (String_of : Id → Str)
    (fetch : Str → Request → Settle (Response Data)) (problemId : Id)
    (page : ExtractPage) (log : list Effect) (button : Button)
    (response : Response Data) (data : Data) :
  target page = inr button →
  fetch (extract_url String_of problemId) extract_init = Fulfilled response →
  json response = Fulfilled data →
  let restored : Error + Button :=
    inr {| disabled := false; textContent := textContent button |} in
  let sent := Fetched (extract_url String_of problemId) extract_init in
  let reported (e : Error) :=
    (({| target := restored; problem_text := problem_text page |},
      log ++ [ sent;
               ConsoleError (lit "추출 오류:") e;
               Toast (lit "텍스트 추출 중 오류가 발생했습니다.") (lit "error") ]),
     Normal tt) in
  extractText String_of fetch problemId (page, log) =
    match data with
    | Nullish e => reported e
    | Body true text _ =>
        match problem_text page, text with
        | Some _, IsString s | Some _, NotString s _ =>
            (({| target := restored; problem_text := Some s |},
              log ++ [sent; Toast (lit "✅ 텍스트 추출 완료!") (lit "success")]),
             Normal tt)
        | None, IsString s =>
            (({| target := restored; problem_text := None |},
              log ++ [ sent;
                       Toast (lit "✅ 텍스트 추출 완료: " ++ take 50 s ++ lit "...")
                             (lit "success") ]),
             Normal tt)
        | None, NotString _ e => reported e
        end
    | Body false _ error =>
        (({| target := restored; problem_text := problem_text page |},
          log ++ [ sent;
                   Toast (lit "텍스트 추출에 실패했습니다: "
                          ++ match error with
                             | Truthy shown => shown
                             | Falsy => lit "알 수 없는 오류"
                             end)
                         (lit "error") ]),
         Normal tt)
    end.
Proof.
  unfold extract_url, extract_init.
  destruct page as [tgt area]; cbn [target problem_text].
  intros -> Hfetch Hbody.
  js_unfold. cbn. rewrite Hfetch; cbn. rewrite Hbody; cbn.
  destruct data as [e|[] [text|shown e] err]; cbn;
    try (destruct area as [old|]; cbn).
  all: rewrite <- ?app_assoc; reflexivity.
Qed.

Lemma extractText_answer_witness :
  extractText FrontendSample.id_text
    (FrontendSample.answers FrontendSample.refusal) 7%N
    ({| target := inr FrontendSample.extract_button; problem_text := None |}, [])
  = (({| target := inr FrontendSample.extract_button; problem_text := None |},
      [] ++ [ Fetched (extract_url FrontendSample.id_text 7%N) extract_init;
              Toast (lit "텍스트 추출에 실패했습니다: " ++ lit "알 수 없는 오류")
                    (lit "error") ]),
     Normal tt).
Proof.
  apply (extractText_answer FrontendSample.id_text
           (FrontendSample.answers FrontendSample.refusal) 7%N
           {| target := inr FrontendSample.extract_button; problem_text := None |}
           [] FrontendSample.extract_button
           {| ok := true; status := 200; json := Fulfilled FrontendSample.refusal |}
           FrontendSample.refusal).
  - reflexivity.
  - reflexivity.
  - reflexivity.
Defined.

(** ** copyToClipboard *)

(** X24: [copyToClipboard] never rejects and shows exactly one toast
    when it comes to an end: the success toast when the text was
    written to the clipboard, and otherwise the error toast, after
    printing the error on the console; while the write is pending
    nothing is shown. *)
Theorem copyToClipboard_outcome {S} (writeText : Str → Settle unit) (text : Str)
    (s : S) (log : list Effect) :
  copyToClipboard writeText text (s, log) =
    match writeText text with
    | Fulfilled _ =>
        ((s, log ++ [Toast (lit "클립보드에 복사되었습니다!") (lit "success")]),
         Normal tt)
    | Rejected e =>
        ((s, log ++ [ ConsoleError (lit "복사 실패:") e;
                      Toast (lit "복사에 실패했습니다.") (lit "error") ]),
         Normal tt)
    | Unsettled => ((s, log), Hung)
    end.
Proof.
  unfold copyToClipboard. js_unfold.
  destruct (writeText text) as [[]|e|]; cbn; rewrite <- ?app_assoc; reflexivity.
Qed.

(** ** validateForm *)

Import FormView.

Lemma trimStart_nil_iff (s : Str) : trimStart s = [] ↔ filled s = false.
Proof.
  unfold filled. induction s as [|c s IH]; cbn; [done|].
  destruct (is_space c); cbn; [exact IH|]. split; discriminate.
Qed.

Lemma trimStart_filled (s : Str) : filled (trimStart s) = filled s.
Proof.
  unfold filled. induction s as [|c s IH]; cbn; [done|].
  destruct (is_space c) eqn:Hc; cbn; [exact IH|]. by rewrite Hc.
Qed.

Lemma filled_reverse (s : Str) : filled (reverse s) = filled s.
Proof.
  unfold filled. induction s as [|c s IH]; [done|].
  rewrite reverse_cons, existsb_app, IH; cbn.
  destruct (is_space c), (existsb _ s); reflexivity.
Qed.

(** [s.trim()] is empty exactly when [s] is white space only. *)
Lemma truthy_trim (s : Str) : truthy (trim s) = filled s.
Proof.
  unfold trim, trimEnd.
  destruct (filled s) eqn:Hs.
  - destruct (reverse _) as [|c r] eqn:Hr; [|reflexivity].
    apply (f_equal reverse) in Hr. rewrite reverse_involutive in Hr.
    apply trimStart_nil_iff in Hr.
    by rewrite filled_reverse, trimStart_filled, Hs in Hr.
  - assert (trimStart s = []) as -> by by apply trimStart_nil_iff.
    reflexivity.
Qed.

Lemma check_fields (fields done : list Field) (valid : bool) :
  foldl check_field (done, valid) fields
  = (done ++ (marked <$> fields),
     valid && forallb (λ f, filled (value f)) fields).
Proof.
  revert done valid. induction fields as [|f fields IH]; intros done valid; cbn.
  - by rewrite app_nil_r, andb_true_r.
  - assert (Hf : marked f =
               if filled (value f)
               then {| value := value f; borderColor := lit "" |}
               else {| value := value f; borderColor := lit "#e74c3c" |})
      by (unfold marked; destruct (filled (value f)); reflexivity).
    unfold check_field at 2. rewrite truthy_trim, Hf. cbn [fst snd].
    destruct (filled (value f)); cbn [negb]; rewrite IH, <- app_assoc.
    + reflexivity.
    + by rewrite andb_false_r.
Qed.

(** What a call of [validateForm] comes to. *)
Lemma validateForm_run (formId : Str) (forms : gmap Str (list Field))
    (log : list Effect) :
  validateForm formId (forms, log) =
    match forms !! formId with
    | None => ((forms, log), Normal true)
    | Some requiredFields =>
        let valid := forallb (λ f, filled (value f)) requiredFields in
        ((<[formId := marked <$> requiredFields]> forms,
          if valid then log
          else log ++ [Toast (lit "모든 필수 항목을 입력해주세요.") (lit "error")]),
         Normal valid)
    end.
Proof.
  unfold validateForm. js_unfold.
  destruct (forms !! formId) as [requiredFields|]; [|reflexivity].
  rewrite check_fields. cbn.
  destruct (forallb _ requiredFields); reflexivity.
Qed.

(** X16: [validateForm] answers [true] for an id that is not on the
    page, and otherwise answers whether every required field holds
    something else than white space.  It gives every blank required
    field a red border and clears the border of the others, changes no
    value and no other element, and shows one error toast exactly when
    it answers [false]. *)
Theorem validateForm_marks_blank_fields (formId : Str)
    (forms : gmap Str (list Field)) (log : list Effect) :
  ∃ forms' log' (answer : bool),
    validateForm formId (forms, log) = ((forms', log'), Normal answer)
    ∧ (answer = true ↔
       ∀ requiredFields, forms !! formId = Some requiredFields →
         ∀ f, f ∈ requiredFields → filled (value f) = true)
    ∧ (∀ requiredFields, forms !! formId = Some requiredFields →
         forms' !! formId = Some (marked <$> requiredFields))
    ∧ (forms !! formId = None → forms' = forms)
    ∧ (∀ id, id ≠ formId → forms' !! id = forms !! id)
    ∧ log' = if answer then log
             else log ++ [Toast (lit "모든 필수 항목을 입력해주세요.") (lit "error")].
Proof.
  rewrite validateForm_run.
  destruct (forms !! formId) as [requiredFields|] eqn:Hform.
  - do 3 eexists. split; [reflexivity|]. split_and!.
    + rewrite forallb_forall. split.
      * intros Hall fs [= <-] f Hf. by apply Hall, list_elem_of_In.
      * intros Hall f Hf. by apply (Hall requiredFields), list_elem_of_In.
    + intros fs [= <-]. by rewrite lookup_insert_eq.
    + done.
    + intros id Hid. by rewrite lookup_insert_ne.
    + reflexivity.
  - do 3 eexists. split; [reflexivity|]. split_and!; try done.
Qed.

Lemma forallb_marked (fields : list Field) :
  forallb (λ f, filled (value f)) (marked <$> fields)
  = forallb (λ f, filled (value f)) fields.
Proof. induction fields as [|f fs IH]; cbn; [done|]. by rewrite IH. Qed.

Lemma marked_marked (fields : list Field) :
  marked <$> (marked <$> fields) = marked <$> fields.
Proof. induction fields as [|f fs IH]; cbn; [done|]. by rewrite IH. Qed.

(** X17: validating again changes nothing: a second [validateForm] on
    the same id gives the same answer and leaves every field as the
    first one left it. *)
Theorem validateForm_again (formId : Str) (forms : gmap Str (list Field))
    (log : list Effect) :
  ∃ forms' log' answer,
    validateForm formId (forms, log) = ((forms', log'), Normal answer)
    ∧ ∃ log'', validateForm formId (forms', log') = ((forms', log''), Normal answer).
Proof.
  rewrite validateForm_run.
  destruct (forms !! formId) as [requiredFields|] eqn:Hform.
  - do 3 eexists. split; [reflexivity|].
    rewrite validateForm_run, lookup_insert_eq.
    cbn. rewrite forallb_marked, marked_marked, insert_insert_eq.
    eexists. reflexivity.
  - do 3 eexists. split; [reflexivity|].
    rewrite validateForm_run, Hform. eexists. reflexivity.
Qed.

(** ** checkFileSize *)

Lemma over_limit (size : N) (maxSizeMB : Q) :
  negb (Qle_bool (inject_Z (Z.of_N size) / 1024 / 1024) maxSizeMB) = true
  ↔ (maxSizeMB * 1048576 < inject_Z (Z.of_N size))%Q.
Proof.
  rewrite negb_true_iff, <- not_true_iff_false, Qle_bool_iff.
  destruct maxSizeMB as [p q]. unfold Qle, Qlt, Qdiv, Qmult, Qinv; cbn.
  split; intros H; lia.
Qed.

(** X18: [checkFileSize] rejects exactly when the input has a first file
    whose size in bytes is more than [maxSizeMB] times 1048576; a file
    of exactly that size passes.  On rejection it shows one error toast
    and clears the input, which is then left without value and without
    files, so that checking it again passes; otherwise it touches
    nothing. *)
Theorem checkFileSize_limit (Number_toString : Q → Str) (maxSizeMB : Q)
    (input : FileInput) (log : list Effect) :
  ∃ answer : bool,
    (checkFileSize Number_toString (Some maxSizeMB) (input, log)).2 = Normal answer
    ∧ (answer = false ↔
       ∃ size, files input ≫= head = Some size
               ∧ (maxSizeMB * 1048576 < inject_Z (Z.of_N size))%Q)
    ∧ (checkFileSize Number_toString (Some maxSizeMB) (input, log)).1 =
        (if answer then (input, log)
         else ({| files := Some []; input_value := [] |},
               log ++ [Toast (lit "파일 크기는 " ++ Number_toString maxSizeMB
                              ++ lit "MB를 초과할 수 없습니다.") (lit "error")]))
    ∧ checkFileSize Number_toString (Some maxSizeMB)
        (checkFileSize Number_toString (Some maxSizeMB) (input, log)).1
      = ((checkFileSize Number_toString (Some maxSizeMB) (input, log)).1,
         Normal true).
Proof.
  unfold checkFileSize. js_unfold. cbv [default from_option id].
  destruct (option_bind _ _ head (files input)) as [size|] eqn:Hhead.
  - destruct (negb (Qle_bool (inject_Z (Z.of_N size) / 1024 / 1024) _)) eqn:Hover.
    + exists false. split_and!; try reflexivity.
      split; [intros _|done]. exists size. split; [done|]. by apply over_limit.
    + exists true. split_and!; try reflexivity.
      * split; [done|]. intros (size' & [= <-] & Hlt).
        apply over_limit in Hlt. congruence.
      * cbn. rewrite Hhead, Hover. reflexivity.
  - exists true. split_and!; try reflexivity.
    + split; [done|]. intros (size & Hsome & _). done.
    + cbn. rewrite Hhead. reflexivity.
Qed.

(** X19: without a second argument the limit is 16 megabytes: a first
    file of up to 16777216 bytes passes and a larger one is rejected;
    an input without files passes. *)
Theorem checkFileSize_default (Number_toString : Q → Str)
    (input : FileInput) (log : list Effect) :
  (checkFileSize Number_toString None (input, log)).2 =
    Normal (match files input ≫= head with
            | Some size => bool_decide (size ≤ 16777216)%N
            | None => true
            end).
Proof.
  unfold checkFileSize. js_unfold. cbv [default from_option id].
  destruct (option_bind _ _ head (files input)) as [size|]; [|reflexivity].
  destruct (negb (Qle_bool (inject_Z (Z.of_N size) / 1024 / 1024) _)) eqn:Hover; cbn [snd].
  - apply over_limit in Hover. rewrite bool_decide_eq_false_2; [reflexivity|].
    unfold Qlt in Hover; cbn in Hover. lia.
  - rewrite bool_decide_eq_true_2; [reflexivity|].
    apply N.le_ngt. intros Hlt.
    assert (negb (Qle_bool (inject_Z (Z.of_N size) / 1024 / 1024) 16) = true)
      as Hyes; [|congruence].
    apply over_limit. unfold Qlt; cbn. lia.
Qed.

(** ** formatDate *)

Import HelperView.

Lemma below_100 (P : N → bool) :
  forallb P (N.of_nat <$> seq 0 100) = true → ∀ n, (n < 100)%N → P n = true.
Proof.
  intros Hall n Hn. rewrite forallb_forall in Hall. apply Hall.
  apply list_elem_of_In, list_elem_of_fmap. exists (N.to_nat n).
  split; [lia|]. apply list_elem_of_In, in_seq. lia.
Qed.

(** Padding to two places prints a number below one hundred as two
    digits. *)
Lemma padStart_two_digits (n : N) :
  (n < 100)%N → padStart 2 "0" (pretty (Z.of_N n)) = two_digits n.
Proof.
  intros Hn.
  apply String.eqb_eq.
  apply (below_100 (λ n, String.eqb (padStart 2 "0" (pretty (Z.of_N n)))
                           (two_digits n))); [|exact Hn].
  vm_compute. reflexivity.
Qed.

Lemma four_digit_year (y : Z) :
  1000 ≤ y ≤ 9999 → String.length (pretty y) = 4%nat.
Proof.
  intros Hy.
  assert (Hall : forallb (λ k, Nat.eqb (String.length (pretty (1000 + Z.of_nat k))) 4)
                   (seq 0 (Z.to_nat 9000)) = true) by (vm_compute; reflexivity).
  rewrite forallb_forall in Hall.
  specialize (Hall (Z.to_nat (y - 1000))).
  rewrite Z2Nat.id in Hall by lia.
  replace (1000 + (y - 1000)) with y in Hall by lia.
  apply Nat.eqb_eq, Hall, in_seq. lia.
Qed.

Lemma length_append (a b : string) :
  String.length (a +:+ b) = (String.length a + String.length b)%nat.
Proof. induction a as [|c a IH]; simpl; [done|]. f_equal. exact IH. Qed.

(** X20: for a date string that does not parse, [formatDate] answers
    "NaN-NaN-NaN NaN:NaN".  For a valid date it prints the year, then
    the month counted from 1, the day, the hours and the minutes as two
    digits each, zero-padded, in the form YYYY-MM-DD HH:MM; with a
    four-digit year the result is 16 characters long. *)
Theorem formatDate_shape (Date_new : Str → option DateFields) (dateString : Str) :
  (Date_new dateString = None →
   formatDate Date_new dateString = "NaN-NaN-NaN NaN:NaN")
  ∧ (∀ d, Date_new dateString = Some d →
       (getMonth d < 12)%N → (getDate d < 100)%N →
       (getHours d < 24)%N → (getMinutes d < 60)%N →
       formatDate Date_new dateString =
         pretty (getFullYear d) +:+ "-" +:+ two_digits (getMonth d + 1)
         +:+ "-" +:+ two_digits (getDate d)
         +:+ " " +:+ two_digits (getHours d)
         +:+ ":" +:+ two_digits (getMinutes d)
       ∧ (1000 ≤ getFullYear d ≤ 9999 →
          String.length (formatDate Date_new dateString) = 16%nat)).
Proof.
  split.
  - intros Hbad. unfold formatDate. rewrite Hbad. reflexivity.
  - intros d Hd Hmonth Hday Hhours Hminutes.
    assert (Heq : formatDate Date_new dateString =
         pretty (getFullYear d) +:+ "-" +:+ two_digits (getMonth d + 1)
         +:+ "-" +:+ two_digits (getDate d)
         +:+ " " +:+ two_digits (getHours d)
         +:+ ":" +:+ two_digits (getMinutes d)).
    { unfold formatDate. rewrite Hd. cbn [fmap option_fmap option_map number_string].
      replace (Z.of_N (getMonth d) + 1) with (Z.of_N (getMonth d + 1)) by lia.
      rewrite !padStart_two_digits by lia. reflexivity. }
    split; [exact Heq|].
    intros Hyear. rewrite Heq, length_append, (four_digit_year _ Hyear).
    reflexivity.
Qed.

Lemma formatDate_shape_witness :
  formatDate (λ _, Some FrontendSample.january_5) (lit "2024-01-05T09:30:00")
  = "2024-01-05 09:30".
Proof.
  refine (proj1 (proj2 (formatDate_shape (λ _, Some FrontendSample.january_5)
                          (lit "2024-01-05T09:30:00"))
                   FrontendSample.january_5 eq_refl _ _ _ _)); reflexivity.
Defined.

(** ** debounce *)

Lemma after_snoc {A} (wait : Z) (n : nat) (actions : list (Action A)) (a : Action A) :
  after wait n (actions ++ [a]) = step wait (after wait n actions) a.
Proof. unfold after. by rewrite foldl_app. Qed.

Lemma invoked_snoc {A} (actions : list (Action A)) (a : Action A) :
  invoked (actions ++ [a]) =
    invoked actions ++ match a with Invoke args => [args] | Fire _ => [] end.
Proof. unfold invoked. rewrite omap_app. by destruct a. Qed.

Lemma debounce_inv_after {A} (wait : Z) (n : nat) (actions : list (Action A)) :
  debounce_inv wait actions (after wait n actions).
Proof.
  induction actions as [|a actions IH] using rev_ind.
  - split; [|constructor]. intros id x Hx.
    change (timers (after wait n [])) with (∅ : gmap nat (A * Z)) in Hx.
    by rewrite lookup_empty in Hx.
  - unfold debounce_inv in *. rewrite after_snoc, invoked_snoc.
    destruct IH as [Hpending Hcalls].
    set (st := after wait n actions) in *.
    destruct a as [args|id]; cbn.
    + split; cbn.
      * intros id x Hx.
        destruct (decide (id = next_timer st)) as [->|Hne].
        -- rewrite lookup_insert_eq in Hx. injection Hx as <-. cbn.
           split_and!; try done.
           ++ by rewrite last_snoc.
           ++ by apply sublist_app.
        -- rewrite lookup_insert_ne in Hx by done.
           destruct (timeout st) as [old|] eqn:Hold; cbn in Hx.
           ++ destruct (decide (id = old)) as [->|Hne'].
              ** by rewrite lookup_delete_eq in Hx.
              ** rewrite lookup_delete_ne in Hx by done.
                 destruct (Hpending id x Hx) as [Hid _]. congruence.
           ++ destruct (Hpending id x Hx) as [Hid _]. congruence.
      * by apply sublist_inserts_r.
    + rewrite app_nil_r. unfold timer_fires.
      destruct (timers st !! id) as [[args w]|] eqn:Hid; [|by split].
      destruct (Hpending id _ Hid) as (Hto & Hw & Hlast & Hsub).
      split; cbn.
      * intros id' x Hx. rewrite Hto in Hx. cbn in Hx.
        destruct (decide (id' = id)) as [->|Hne].
        -- by rewrite lookup_delete_eq in Hx.
        -- rewrite !lookup_delete_ne in Hx by done.
           destruct (Hpending id' x Hx) as [Hid' _]. congruence.
      * exact Hsub.
Qed.

(** X21: a debounced function has at most one timer pending at any
    time; that timer is the one its variable [timeout] names, it was set
    with the delay [wait], and it carries the arguments of the latest
    call. *)
Theorem debounce_single_timer {A} (wait : Z) (n : nat) (actions : list (Action A)) :
  let st := after wait n actions in
  (∀ id id' x x', timers st !! id = Some x → timers st !! id' = Some x' → id = id')
  ∧ ∀ id args w,
      timers st !! id = Some (args, w) →
      timeout st = Some id ∧ w = wait ∧ last (invoked actions) = Some args.
Proof.
  destruct (debounce_inv_after wait n actions) as [Hpending _].
  split.
  - intros id id' x x' Hx Hx'.
    destruct (Hpending id x Hx) as [Hid _].
    destruct (Hpending id' x' Hx') as [Hid' _]. congruence.
  - intros id args w Hx.
    destruct (Hpending id _ Hx) as (? & ? & ? & _). done.
Qed.

(** X22: [func] only ever receives arguments the debounced function
    was called with, in the order of those calls and each call's
    arguments at most once: the calls of [func] are a sublist of the
    calls of the debounced function. *)
Theorem debounce_calls_sublist {A} (wait : Z) (n : nat) (actions : list (Action A)) :
  calls (after wait n actions) `sublist_of` invoked actions.
Proof. apply debounce_inv_after. Qed.

Lemma after_invokes_calls {A} (wait : Z) (n : nat) (actions : list (Action A))
    (burst : list A) :
  calls (after wait n (actions ++ (Invoke <$> burst))) = calls (after wait n actions).
Proof.
  induction burst as [|b burst IH] using rev_ind.
  - by rewrite app_nil_r.
  - rewrite fmap_app. change (Invoke <$> [b]) with [@Invoke A b].
    rewrite app_assoc, after_snoc. exact IH.
Qed.

(** X23: a burst of calls collapses into one: after any history, a run
    of calls of the debounced function leaves exactly one timer, with
    the arguments of the last call of the run; [func] has not been called
    during the run, and when that timer goes off [func] is called once,
    with those arguments, and no timer is left. *)
Theorem debounce_burst {A} (wait : Z) (n : nat) (actions : list (Action A))
    (burst : list A) (args : A) :
  let st := after wait n (actions ++ (Invoke <$> burst) ++ [Invoke args]) in
  ∃ id,
    timers st = {[ id := (args, wait) ]}
    ∧ calls st = calls (after wait n actions)
    ∧ calls (timer_fires id st) = calls (after wait n actions) ++ [args]
    ∧ timers (timer_fires id st) = ∅.
Proof.
  cbn. rewrite app_assoc, after_snoc.
  set (st := after wait n (actions ++ (Invoke <$> burst))).
  assert (Hcalls : calls st = calls (after wait n actions))
    by apply after_invokes_calls.
  assert (Hclear : clearTimeout (timeout st) (timers st) = ∅).
  { apply map_empty. intros i.
    destruct (debounce_inv_after wait n (actions ++ (Invoke <$> burst)))
      as [Hpending _]. fold st in Hpending.
    destruct (clearTimeout (timeout st) (timers st) !! i) as [x|] eqn:Hi; [|done].
    exfalso. unfold clearTimeout in Hi.
    destruct (timeout st) as [old|] eqn:Hold.
    - destruct (decide (i = old)) as [->|Hne].
      + by rewrite lookup_delete_eq in Hi.
      + rewrite lookup_delete_ne in Hi by done.
        destruct (Hpending i x Hi) as [Hid _]. congruence.
    - destruct (Hpending i x Hi) as [Hid _]. congruence. }
  exists (next_timer st). unfold timer_fires, executedFunction; cbn.
  rewrite !Hclear, insert_empty, lookup_singleton_eq; cbn.
  rewrite delete_singleton_eq, delete_empty, Hcalls. done.
Qed.
